(** * faigz: reentrant FASTA/FASTQ index access (faigz.h)

    A shallow embedding of the implementation part of [faigz.h]
    (the code under [REENTRANT_FAIDX_IMPLEMENTATION]) and the properties
    of it that the specification states.

    Conventions.
    - C integers are values of [Z]; every conversion and every
      fixed-width operation of the source is written out ([to_u64],
      [to_i64], [to_i32]).  The model is LP64: [size_t], [uint64_t] are
      64-bit unsigned, [hts_pos_t], [ssize_t], [off_t] 64-bit signed,
      [int] 32-bit signed.
    - C's [/] and [%] truncate toward zero: [Z.quot] and [Z.rem].
    - Calls into htslib, libc and pthreads whose result the source
      inspects are actions of a small free monad [io]; a handler gives
      them a meaning.  Calls that only release a resource ([free],
      [hclose], [fai_destroy], [bgzf_close], [pthread_mutex_destroy])
      have no result the source looks at and are not actions.
    - The pthread mutex serialises [ref_count] updates; the model is
      sequential and has no field for it.
    - [fai_get_val] and [faidx_meta_parse_region] rest on htslib's
      [hts_parse_region]; nothing modelled here calls them and they are
      left out. *)

From Stdlib Require Import ZArith Lia List String.
From stdpp Require Import gmap strings list.
Import ListNotations.

Local Open Scope Z_scope.

(** ** C integer types *)

Module CInt.

Definition two64 : Z := Eval cbv in 2 ^ 64.
Definition two63 : Z := Eval cbv in 2 ^ 63.
Definition two32 : Z := Eval cbv in 2 ^ 32.
Definition two31 : Z := Eval cbv in 2 ^ 31.

Definition SIZE_MAX : Z := two64 - 1.
Definition INT64_MAX : Z := two63 - 1.
Definition INT64_MIN : Z := - two63.
Definition INT_MAX : Z := two31 - 1.
Definition INT_MIN : Z := - two31.

(** Conversion to [uint64_t] / [size_t]. *)
Definition to_u64 (z : Z) : Z := z mod two64.
(** Conversion to [int64_t] / [hts_pos_t] / [ssize_t] / [off_t]. *)
Definition to_i64 (z : Z) : Z := (z + two63) mod two64 - two63.
(** Conversion to [int]. *)
Definition to_i32 (z : Z) : Z := (z + two31) mod two32 - two31.

Definition in_i64 (z : Z) : Prop := INT64_MIN <= z <= INT64_MAX.
Definition in_u64 (z : Z) : Prop := 0 <= z <= SIZE_MAX.
Definition in_u32 (z : Z) : Prop := 0 <= z < two32.
Definition in_int (z : Z) : Prop := INT_MIN <= z <= INT_MAX.

Definition u64_add (a b : Z) : Z := to_u64 (a + b).
Definition u64_sub (a b : Z) : Z := to_u64 (a - b).
Definition i64_add (a b : Z) : Z := to_i64 (a + b).
Definition i64_sub (a b : Z) : Z := to_i64 (a - b).
Definition i64_mul (a b : Z) : Z := to_i64 (a * b).

End CInt.
Import CInt.

(** ** Data *)

Definition byte : Type := Byte.byte.

(** [faidx1_t]: the layout descriptor of one sequence. *)
Record faidx1_t : Type := mk_faidx1 {
  id_ : Z;          (* int id *)
  line_len : Z;     (* uint32_t: bytes per line on disk *)
  line_blen : Z;    (* uint32_t: payload bytes per line *)
  len : Z;          (* uint64_t *)
  seq_offset : Z;   (* uint64_t *)
  qual_offset : Z   (* uint64_t *)
}.

Inductive fai_format_options : Type := FAI_NONE | FAI_FASTA | FAI_FASTQ.

Definition fai_format_eqb (a b : fai_format_options) : bool :=
  match a, b with
  | FAI_NONE, FAI_NONE | FAI_FASTA, FAI_FASTA | FAI_FASTQ, FAI_FASTQ => true
  | _, _ => false
  end.

(** One entry of the block-offset table ([bgzidx1_t]). *)
Record bgzidx1_t : Type := mk_bgzidx1 { caddr : Z; uaddr : Z }.

(** [struct bgzidx_t]: [int noffs, moffs; bgzidx1_t *offs]. *)
Record bgzidx_t : Type := mk_bgzidx {
  noffs : Z;
  moffs : Z;
  offs : list bgzidx1_t
}.

(** The part of htslib's [BGZF] the source touches: the decoder itself
    ([fd] names it for the handler), its [is_compressed] flag and its
    [idx] pointer. *)
Record BGZF : Type := mk_BGZF {
  fd : nat;
  is_compressed : bool;
  idx : option bgzidx_t
}.

(** htslib's [faidx_t], as [faidx_meta_load] reads it. *)
Record faidx_t : Type := mk_faidx {
  fai_bgzf : option BGZF;
  fai_n : Z;
  fai_m : Z;
  fai_name : list string;
  fai_hash : gmap string faidx1_t;
  fai_format : fai_format_options
}.

(** [faidx_meta_t].  [hash] is the khash table keyed by name. *)
Record faidx_meta_t : Type := mk_meta {
  n : Z;
  m : Z;
  name : list string;
  hash : gmap string faidx1_t;
  format : fai_format_options;
  fasta_path : string;
  fai_path : string;
  gzi_path : string;
  bgzf_idx : option bgzidx_t;
  ref_count : Z;
  is_bgzf : bool
}.

Definition set_ref_count (meta : faidx_meta_t) (rc : Z) : faidx_meta_t :=
  {| n := n meta; m := m meta; name := name meta; hash := hash meta;
     format := format meta; fasta_path := fasta_path meta;
     fai_path := fai_path meta; gzi_path := gzi_path meta;
     bgzf_idx := bgzf_idx meta; ref_count := rc; is_bgzf := is_bgzf meta |}.

(** [faidx_reader_t]: the reader's view of the shared metadata and its
    private decoder. *)
Record faidx_reader_t : Type := mk_reader {
  meta_of : faidx_meta_t;
  bgzf : BGZF
}.

(** An [hFILE] opened for reading: the bytes not yet consumed. *)
Definition hFILE : Type := list byte.

(** ** External calls *)

Inductive action : Type -> Type :=
| Alloc (nbytes : Z) : action bool
    (* malloc / calloc: true iff the result is not NULL *)
| Ksprintf (out : string) : action bool
    (* ksprintf into a fresh kstring: true iff the result is >= 0 *)
| KhInit : action bool
| MutexInit : action Z
| FaiLoad3Format (fn fnfai fngzi : string) (flags : Z)
    (fmt : fai_format_options) : action (option faidx_t)
| Hopen (path : string) : action (option hFILE)
| BgzfOpen (path : string) : action (option BGZF)
| BgzfUseek (d : nat) (uoffset : Z) : action Z
| BgzfRead (d : nat) (length : Z) : action (option (list byte)).
    (* Some data: the bytes stored, the return value is their number;
       None: a negative return value *)

Inductive io (A : Type) : Type :=
| Ret (a : A)
| Act {R : Type} (a : action R) (k : R -> io A).

Arguments Ret {A} a.
Arguments Act {A R} a k.

Fixpoint bind {A B : Type} (p : io A) (f : A -> io B) : io B :=
  match p with
  | Ret a => f a
  | Act a k => Act a (fun r => bind (k r) f)
  end.

Declare Scope io_scope.
Delimit Scope io_scope with io.
Notation "'call' x <- a ;; k" := (Act a (fun x => k))
  (at level 10, x name, a at level 99, k at level 200) : io_scope.
Notation "'sub' x <- p ;; k" := (bind p (fun x => k))
  (at level 10, x name, p at level 99, k at level 200) : io_scope.
Local Open Scope io_scope.

(** A handler answers every action from a state of type [W]. *)
Definition handler (W : Type) : Type := forall R : Type, action R -> W -> R * W.

Fixpoint run {W A : Type} (H : handler W) (p : io A) (w : W) : A * W :=
  match p with
  | Ret a => (a, w)
  | Act a k => let '(r, w') := H _ a w in run H (k r) w'
  end.

(** The number a [bgzf_read] returns. *)
Definition nread_of (r : option (list byte)) : Z :=
  match r with
  | Some data => Z.of_nat (length data)
  | None => -1
  end.

Definition data_of (r : option (list byte)) : list byte :=
  match r with
  | Some data => data
  | None => []
  end.

(** ** Name lookup *)

(** [fai_name2id]. *)
Definition fai_name2id (meta : faidx_meta_t) (ref : string) : Z :=
  match hash meta !! ref with
  | None => -1
  | Some v => id_ v
  end.

(** ** Coordinates *)

(** [faidx_adjust_position]: [Some (val, beg, end)] when it returns 0,
    [None] when it returns 1 (and sets [*len = -2]). *)
Definition faidx_adjust_position (meta : faidx_meta_t) (end_adjust : Z)
    (c_name : string) (p_beg_i p_end_i : Z) : option (faidx1_t * Z * Z) :=
  match hash meta !! c_name with
  | None => None
  | Some val =>
      let p_beg_i := if p_end_i <? p_beg_i then p_end_i else p_beg_i in
      let p_beg_i :=
        if p_beg_i <? 0 then 0
        else if len val <=? to_u64 p_beg_i then to_i64 (len val)
        else p_beg_i in
      let p_end_i :=
        if p_end_i <? 0 then 0
        else if len val <=? to_u64 p_end_i
             then to_i64 (u64_sub (len val) (to_u64 end_adjust))
        else p_end_i in
      Some (val, p_beg_i, p_end_i)
  end.

(** The argument of [bgzf_useek] in [fai_retrieve]:
    [offset + beg / val->line_blen * val->line_len + beg % val->line_blen],
    a [uint64_t] expression converted to [off_t]. *)
Definition seek_target (val : faidx1_t) (offset beg : Z) : Z :=
  to_i64
    (u64_add
       (u64_add offset
          (to_u64 (i64_mul (Z.quot beg (line_blen val)) (line_len val))))
       (to_u64 (Z.rem beg (line_blen val)))).

(** The argument of [malloc] in [fai_retrieve]:
    [(size_t)end - beg + val->line_len - val->line_blen + 1]. *)
Definition buffer_size (val : faidx1_t) (beg end_ : Z) : Z :=
  u64_add
    (u64_sub (u64_add (u64_sub (to_u64 end_) (to_u64 beg)) (line_len val))
       (line_blen val))
    1.

(** The loop [while (remaining > val->line_blen)] of [fai_retrieve].
    [acc] is the payload kept so far ([buffer] up to [s]).  The result is
    [None] after a short read, otherwise the payload and what remains. *)
Fixpoint read_lines (fuel : nat) (d : nat) (val : faidx1_t)
    (acc : list byte) (remaining : Z) : io (option (list byte * Z)) :=
  match fuel with
  | O => Ret (Some (acc, remaining))
  | S fuel' =>
      if line_blen val <? remaining then
        call r <- BgzfRead d (to_u64 (line_len val)) ;;
        if nread_of r <? line_len val then Ret None
        else read_lines fuel' d val
               (acc ++ take (Z.to_nat (line_blen val)) (data_of r))
               (remaining - line_blen val)
      else Ret (Some (acc, remaining))
  end.

(** [fai_retrieve].  The result is the returned buffer up to its
    terminating NUL ([None] for NULL) and the value left in [*len]. *)
Definition fai_retrieve (bgzf : BGZF) (val : faidx1_t)
    (offset beg end_ : Z) : io (option (list byte) * Z) :=
  if SIZE_MAX - 2 <=? u64_sub (to_u64 end_) (to_u64 beg) then Ret (None, -1)
  else if line_blen val <=? 0 then Ret (None, -1)
  else
    call ret <- BgzfUseek (fd bgzf) (seek_target val offset beg) ;;
    if ret <? 0 then Ret (None, -1)
    else
      call buffer <- Alloc (buffer_size val beg end_) ;;
      if negb buffer then Ret (None, -1)
      else
        let remaining := i64_sub end_ beg in
        let firstline_blen := line_blen val - Z.rem beg (line_blen val) in
        if remaining <=? firstline_blen then
          call r <- BgzfRead (fd bgzf) (to_u64 remaining) ;;
          if nread_of r <? remaining then Ret (None, -1)
          else Ret (Some (data_of r), remaining)
        else
          let firstline_len := line_len val - Z.rem beg (line_blen val) in
          call r <- BgzfRead (fd bgzf) (to_u64 firstline_len) ;;
          if nread_of r <? firstline_len then Ret (None, -1)
          else
            let s := take (Z.to_nat firstline_blen) (data_of r) in
            let remaining' := remaining - firstline_blen in
            sub lines <- read_lines (Z.to_nat remaining') (fd bgzf) val s
                       remaining' ;;
            match lines with
            | None => Ret (None, -1)
            | Some (s, rest) =>
                if 0 <? rest then
                  call r <- BgzfRead (fd bgzf) (to_u64 rest) ;;
                  if nread_of r <? rest then Ret (None, -1)
                  else Ret (Some (s ++ take (Z.to_nat rest) (data_of r)),
                            remaining)
                else Ret (Some s, remaining)
            end.

(** [faidx_reader_fetch_seq]. *)
Definition faidx_reader_fetch_seq (reader : faidx_reader_t) (c_name : string)
    (p_beg_i p_end_i : Z) : io (option (list byte) * Z) :=
  match faidx_adjust_position (meta_of reader) 1 c_name p_beg_i p_end_i with
  | None => Ret (None, -2)
  | Some (val, p_beg_i, p_end_i) =>
      fai_retrieve (bgzf reader) val (seq_offset val) p_beg_i
        (i64_add p_end_i 1)
  end.

(** [faidx_reader_fetch_qual]. *)
Definition faidx_reader_fetch_qual (reader : faidx_reader_t) (c_name : string)
    (p_beg_i p_end_i : Z) : io (option (list byte) * Z) :=
  if negb (fai_format_eqb (format (meta_of reader)) FAI_FASTQ)
  then Ret (None, -2)
  else
    match faidx_adjust_position (meta_of reader) 1 c_name p_beg_i p_end_i with
    | None => Ret (None, -2)
    | Some (val, p_beg_i, p_end_i) =>
        fai_retrieve (bgzf reader) val (qual_offset val) p_beg_i
          (i64_add p_end_i 1)
    end.

(** ** Queries *)

Definition faidx_meta_nseq (meta : option faidx_meta_t) : Z :=
  match meta with
  | Some mt => n mt
  | None => 0
  end.

Definition faidx_meta_iseq (meta : option faidx_meta_t) (i : Z)
    : option string :=
  match meta with
  | Some mt =>
      if (0 <=? i) && (i <? n mt) then name mt !! Z.to_nat i else None
  | None => None
  end.

Definition faidx_meta_seq_len (meta : option faidx_meta_t)
    (seq : option string) : Z :=
  match meta, seq with
  | Some mt, Some s =>
      match hash mt !! s with
      | None => -1
      | Some v => to_i64 (len v)
      end
  | _, _ => -1
  end.

Definition faidx_meta_has_seq (meta : option faidx_meta_t)
    (seq : option string) : bool :=
  match meta, seq with
  | Some mt, Some s => bool_decide (is_Some (hash mt !! s))
  | _, _ => false
  end.

(** The offset of the seek a program starts with, if it starts with one. *)
Definition first_seek {A : Type} (p : io A) : option Z :=
  match p with
  | Act a _ =>
      match a with
      | BgzfUseek _ uoffset => Some uoffset
      | _ => None
      end
  | Ret _ => None
  end.

(** ** Reference counting *)

(** The storage of the one shared [faidx_meta_t]. *)
Inductive cell : Type :=
| Live (meta : faidx_meta_t)
| Freed.

(** A [faidx_meta_t *] argument. *)
Inductive pointer : Type := NULL | Ptr.

(** [faidx_meta_ref].  [None]: the pointer dangles (undefined in C). *)
Definition faidx_meta_ref (meta : pointer) (mem : cell) : option cell :=
  match meta with
  | NULL => Some mem
  | Ptr =>
      match mem with
      | Live mt => Some (Live (set_ref_count mt (to_i32 (ref_count mt + 1))))
      | Freed => None
      end
  end.

(** [faidx_meta_destroy]. *)
Definition faidx_meta_destroy (meta : pointer) (mem : cell) : option cell :=
  match meta with
  | NULL => Some mem
  | Ptr =>
      match mem with
      | Live mt =>
          let mt' := set_ref_count mt (to_i32 (ref_count mt - 1)) in
          let should_free := ref_count mt' <=? 0 in
          if should_free then Some Freed else Some (Live mt')
      | Freed => None
      end
  end.

(** Object sizes on LP64; they only label the allocation requests. *)
Definition sizeof_reader : Z := 16.
Definition sizeof_meta : Z := 120.
Definition sizeof_bgzidx : Z := 24.
Definition sizeof_bgzidx1 : Z := 16.
Definition sizeof_ptr : Z := 8.

(** [bgzf_open_shared_idx]. *)
Definition bgzf_open_shared_idx (path : string) (shared : option bgzidx_t)
    : io (option BGZF) :=
  call b <- BgzfOpen path ;;
  match b with
  | None => Ret None
  | Some b =>
      Ret (Some {| fd := fd b; is_compressed := is_compressed b;
                   idx := shared |})
  end.

(** [faidx_reader_create]: the storage afterwards and the reader. *)
Definition faidx_reader_create (meta : pointer) (mem : cell)
    : io (option cell * option faidx_reader_t) :=
  match meta with
  | NULL => Ret (Some mem, None)
  | Ptr =>
      call reader <- Alloc sizeof_reader ;;
      if negb reader then Ret (Some mem, None)
      else
        match faidx_meta_ref Ptr mem with
        | Some (Live mt) =>
            sub b <- (if is_bgzf mt
                      then bgzf_open_shared_idx (fasta_path mt) (bgzf_idx mt)
                      else call b <- BgzfOpen (fasta_path mt) ;; Ret b) ;;
            match b with
            | None => Ret (faidx_meta_destroy Ptr (Live mt), None)
            | Some b => Ret (Some (Live mt),
                             Some {| meta_of := mt; bgzf := b |})
            end
        | _ => Ret (None, None)
        end
  end.

(** [faidx_reader_destroy]. *)
Definition faidx_reader_destroy (reader : option faidx_reader_t) (mem : cell)
    : option cell :=
  match reader with
  | None => Some mem
  | Some _ => faidx_meta_destroy Ptr mem
  end.

(** ** Loading *)

(** Modelled from the spec: [hread_uint64] is htslib's and not part of
    the sources at hand; section 6 gives the sidecar as little-endian
    unsigned 64-bit values.  Eight bytes are consumed; fewer left is a
    failed read. *)
Definition le_value (bs : list byte) : Z :=
  fold_right (fun b acc => Z.of_N (Byte.to_N b) + 256 * acc) 0 bs.

Definition hread_uint64 (fp : hFILE) : option (Z * hFILE) :=
  if (8 <=? length fp)%nat then Some (le_value (take 8 fp), drop 8 fp)
  else None.

(** The loop [for (i = 1; i < idx->noffs; i++)] of
    [bgzf_index_load_direct]. *)
Fixpoint read_offs (count : nat) (fp : hFILE) (acc : list bgzidx1_t)
    : option (list bgzidx1_t) :=
  match count with
  | O => Some acc
  | S count' =>
      match hread_uint64 fp with
      | None => None
      | Some (c, fp1) =>
          match hread_uint64 fp1 with
          | None => None
          | Some (u, fp2) =>
              read_offs count' fp2 (acc ++ [{| caddr := c; uaddr := u |}])
          end
      end
  end.

(** [bgzf_index_load_direct]. *)
Definition bgzf_index_load_direct (bname : string) : io (option bgzidx_t) :=
  call fp <- Hopen bname ;;
  match fp with
  | None => Ret None
  | Some fp =>
      call idx <- Alloc sizeof_bgzidx ;;
      if negb idx then Ret None
      else
        match hread_uint64 fp with
        | None => Ret None
        | Some (x, fp) =>
            let moffs := to_i32 (u64_add x 1) in
            let noffs := moffs in
            call offs <- Alloc (to_u64 (to_u64 moffs * sizeof_bgzidx1)) ;;
            if negb offs then Ret None
            else
              match read_offs (Z.to_nat (noffs - 1)) fp
                      [{| caddr := 0; uaddr := 0 |}] with
              | None => Ret None
              | Some offs =>
                  Ret (Some {| noffs := noffs; moffs := moffs; offs := offs |})
              end
        end
  end.

(** [kstrdup]. *)
Definition kstrdup (str : string) : io (option string) :=
  let len := to_i32 (Z.of_nat (String.length str) + 1) in
  call s <- Alloc (to_u64 len) ;;
  Ret (if (s : bool) then Some str else None).

(** The loop copying the sequence names in [faidx_meta_load]. *)
Fixpoint dup_names (names : list string) (acc : list string)
    : io (option (list string)) :=
  match names with
  | [] => Ret (Some acc)
  | nm :: rest =>
      sub s <- kstrdup nm ;;
      match s with
      | None => Ret None
      | Some s => dup_names rest (acc ++ [s])
      end
  end.

(** [kh_val] at the result of [kh_get].  For a key that is missing the
    source would read the slot at [kh_end]; the model puts a zeroed
    descriptor there.  htslib keeps every name of [fai->name] in
    [fai->hash], and no theorem below rests on the zeroed value. *)
Definition kh_val_at (h : gmap string faidx1_t) (key : string) : faidx1_t :=
  match h !! key with
  | Some v => v
  | None => mk_faidx1 0 0 0 0 0 0
  end.

(** The loop filling [meta->hash]: [kh_put] leaves an existing key alone
    ([absent = 0]), and only a fresh key gets a value. *)
Definition kh_put_names (fai : faidx_t) (names : list string)
    : gmap string faidx1_t :=
  fold_left
    (fun h nm =>
       match h !! nm with
       | Some _ => h
       | None => <[nm := kh_val_at (fai_hash fai) nm]> h
       end)
    names ∅.

(** [faidx_meta_load]. *)
Definition faidx_meta_load (filename : option string)
    (fmt : fai_format_options) (flags : Z) : io (option faidx_meta_t) :=
  match filename with
  | None => Ret None
  | Some filename =>
      let fnfai := (filename ++ ".fai")%string in
      let fngzi := (filename ++ ".gzi")%string in
      call ok <- Ksprintf fnfai ;;
      if negb ok then Ret None else
      call ok <- Ksprintf fngzi ;;
      if negb ok then Ret None else
      call fai <- FaiLoad3Format filename fnfai fngzi flags fmt ;;
      match fai with
      | None => Ret None
      | Some fai =>
          call meta <- Alloc sizeof_meta ;;
          if negb meta then Ret None else
          call rc <- MutexInit ;;
          if negb (rc =? 0) then Ret None else
          call names <- Alloc (to_u64 (to_u64 (fai_m fai) * sizeof_ptr)) ;;
          if negb names then Ret None else
          sub copied <- dup_names
                          (take (Z.to_nat (fai_n fai)) (fai_name fai)) [] ;;
          match copied with
          | None => Ret None
          | Some copied =>
              call h <- KhInit ;;
              if negb h then Ret None else
              sub fasta <- kstrdup filename ;;
              sub fai_p <- kstrdup fnfai ;;
              sub gzi_p <- kstrdup fngzi ;;
              match fasta, fai_p, gzi_p with
              | Some fasta, Some fai_p, Some gzi_p =>
                  let compressed :=
                    match fai_bgzf fai with
                    | Some b => is_compressed b
                    | None => false
                    end in
                  sub table <-
                    (if compressed then
                       call fp <- Hopen fngzi ;;
                       match fp with
                       | Some _ => bgzf_index_load_direct fngzi
                       | None => Ret None
                       end
                     else Ret None) ;;
                  Ret (Some {| n := fai_n fai; m := fai_m fai;
                               name := copied;
                               hash := kh_put_names fai copied;
                               format := fai_format fai;
                               fasta_path := fasta; fai_path := fai_p;
                               gzi_path := gzi_p; bgzf_idx := table;
                               ref_count := 1; is_bgzf := compressed |})
              | _, _, _ => Ret None
              end
          end
      end
  end.

(** ** Runs of acquire and release *)

Inductive op : Type :=
| OpRef                       (* faidx_meta_ref(meta) *)
| OpDestroy                   (* faidx_meta_destroy(meta) *)
| OpReaderCreate (reader_ok : bool) (opened : option BGZF)
    (* faidx_reader_create(meta), with what calloc and bgzf_open answer *)
| OpReaderDestroy (i : nat).  (* faidx_reader_destroy on the i-th live reader *)

(** A handler that gives the same answer every time. *)
Record answers : Type := mk_answers {
  a_alloc : bool;
  a_mutex : Z;
  a_fai : option faidx_t;
  a_hopen : option hFILE;
  a_open : option BGZF;
  a_seek : Z;
  a_read : option (list byte)
}.

Definition fixed (ans : answers) : handler unit :=
  fun R a =>
    match a in action R return unit -> R * unit with
    | Alloc _ => fun w => (a_alloc ans, w)
    | Ksprintf _ => fun w => (a_alloc ans, w)
    | KhInit => fun w => (a_alloc ans, w)
    | MutexInit => fun w => (a_mutex ans, w)
    | FaiLoad3Format _ _ _ _ _ => fun w => (a_fai ans, w)
    | Hopen _ => fun w => (a_hopen ans, w)
    | BgzfOpen _ => fun w => (a_open ans, w)
    | BgzfUseek _ _ => fun w => (a_seek ans, w)
    | BgzfRead _ _ => fun w => (a_read ans, w)
    end.

Definition create_answers (reader_ok : bool) (opened : option BGZF)
    : answers :=
  {| a_alloc := reader_ok; a_mutex := 0; a_fai := None; a_hopen := None;
     a_open := opened; a_seek := 0; a_read := None |}.

(** The state of a run: the shared storage and the live readers. *)
Definition rstate : Type := cell * list faidx_reader_t.

Definition exec_op (o : op) (st : rstate) : option rstate :=
  let '(mem, readers) := st in
  match o with
  | OpRef =>
      match faidx_meta_ref Ptr mem with
      | Some mem' => Some (mem', readers)
      | None => None
      end
  | OpDestroy =>
      match faidx_meta_destroy Ptr mem with
      | Some mem' => Some (mem', readers)
      | None => None
      end
  | OpReaderCreate reader_ok opened =>
      match fst (run (fixed (create_answers reader_ok opened))
                   (faidx_reader_create Ptr mem) tt) with
      | (Some mem', Some r) => Some (mem', readers ++ [r])
      | (Some mem', None) => Some (mem', readers)
      | (None, _) => None
      end
  | OpReaderDestroy i =>
      match readers !! i with
      | None => None
      | Some r =>
          match faidx_reader_destroy (Some r) mem with
          | Some mem' => Some (mem', delete i readers)
          | None => None
          end
      end
  end.

Fixpoint exec (ops : list op) (st : rstate) : option rstate :=
  match ops with
  | [] => Some st
  | o :: rest =>
      match exec_op o st with
      | Some st' => exec rest st'
      | None => None
      end
  end.

(** An operation that takes a reference, and one that gives one back. *)
Definition is_acquire (o : op) : bool :=
  match o with
  | OpRef => true
  | OpReaderCreate true (Some _) => true
  | _ => false
  end.

Definition is_release (o : op) : bool :=
  match o with
  | OpDestroy | OpReaderDestroy _ => true
  | _ => false
  end.

Fixpoint count_ops (f : op -> bool) (ops : list op) : Z :=
  match ops with
  | [] => 0
  | o :: rest => (if f o then 1 else 0) + count_ops f rest
  end.

Definition acquires (ops : list op) : Z := count_ops is_acquire ops.
Definition releases (ops : list op) : Z := count_ops is_release ops.


(** ** An in-memory world to run programs in *)

Record world : Type := mk_world {
  w_files : gmap string (list byte);   (* the file system *)
  w_fai : option faidx_t;              (* what fai_load3_format returns *)
  w_allocs : list bool;                (* answers to the coming allocations;
                                          once used up, allocation succeeds *)
  w_decoders : list (list byte * Z)    (* open plain decoders: data, position *)
}.

Definition set_allocs (w : world) (l : list bool) : world :=
  {| w_files := w_files w; w_fai := w_fai w; w_allocs := l;
     w_decoders := w_decoders w |}.

Definition set_decoders (w : world) (ds : list (list byte * Z)) : world :=
  {| w_files := w_files w; w_fai := w_fai w; w_allocs := w_allocs w;
     w_decoders := ds |}.

Definition pop_alloc (w : world) : bool * world :=
  match w_allocs w with
  | [] => (true, w)
  | b :: rest => (b, set_allocs w rest)
  end.

Definition sim_open (path : string) (w : world) : option BGZF * world :=
  match w_files w !! path with
  | None => (None, w)
  | Some data =>
      (Some {| fd := length (w_decoders w); is_compressed := false;
               idx := None |},
       set_decoders w (w_decoders w ++ [(data, 0)]))
  end.

Definition sim_useek (d : nat) (uoffset : Z) (w : world) : Z * world :=
  match w_decoders w !! d with
  | None => (-1, w)
  | Some (data, _) =>
      if uoffset <? 0 then (-1, w)
      else (0, set_decoders w (<[d := (data, uoffset)]> (w_decoders w)))
  end.

Definition sim_read (d : nat) (length_ : Z) (w : world)
    : option (list byte) * world :=
  match w_decoders w !! d with
  | None => (None, w)
  | Some (data, pos) =>
      let got := take (Z.to_nat length_) (drop (Z.to_nat pos) data) in
      (Some got,
       set_decoders w
         (<[d := (data, pos + Z.of_nat (length got))]> (w_decoders w)))
  end.

Definition sim : handler world :=
  fun R a =>
    match a in action R return world -> R * world with
    | Alloc _ => pop_alloc
    | Ksprintf _ => pop_alloc
    | KhInit => pop_alloc
    | MutexInit => fun w => (0, w)
    | FaiLoad3Format _ _ _ _ _ => fun w => (w_fai w, w)
    | Hopen path => fun w => (w_files w !! path, w)
    | BgzfOpen path => sim_open path
    | BgzfUseek d uoffset => sim_useek d uoffset
    | BgzfRead d length_ => sim_read d length_
    end.

(** *** Sample data *)

Definition A_ : byte := Byte.x41.
Definition C_ : byte := Byte.x43.
Definition G_ : byte := Byte.x47.
Definition T_ : byte := Byte.x54.
Definition NL : byte := Byte.x0a.

Fixpoint cycle (k : nat) (unit_ : list byte) : list byte :=
  match k with
  | O => []
  | S k' => unit_ ++ cycle k' unit_
  end.

(** One line of 60 bases, and [t.fa]: a header line and 180 bases of
    [chr1] in three lines of 60, each ended by a newline. *)
Definition line60 : list byte := cycle 15 [A_; C_; G_; T_].

Definition t_fa : list byte :=
  [Byte.x3e; Byte.x63; Byte.x68; Byte.x72; Byte.x31; NL]
  ++ line60 ++ [NL] ++ line60 ++ [NL] ++ line60 ++ [NL].

Definition chr1 : faidx1_t :=
  {| id_ := 0; line_len := 61; line_blen := 60; len := 180;
     seq_offset := 6; qual_offset := 0 |}.

Definition t_meta : faidx_meta_t :=
  {| n := 1; m := 1; name := ["chr1"%string];
     hash := {["chr1"%string := chr1]};
     format := FAI_FASTA; fasta_path := "t.fa"; fai_path := "t.fa.fai";
     gzi_path := "t.fa.gzi"; bgzf_idx := None; ref_count := 2;
     is_bgzf := false |}.

Definition t_bgzf : BGZF := {| fd := 0; is_compressed := false; idx := None |}.

Definition t_reader : faidx_reader_t := {| meta_of := t_meta; bgzf := t_bgzf |}.

(** A world in which [t.fa] exists and [t_reader]'s decoder is open on it. *)
Definition t_world : world :=
  {| w_files := {["t.fa"%string := t_fa]}; w_fai := None; w_allocs := [];
     w_decoders := [(t_fa, 0)] |}.

(** ** Further sample data and auxiliary notions *)

(** A descriptor whose fields are values of their C types. *)
Definition wf_faidx1 (val : faidx1_t) : Prop :=
  in_int (id_ val) /\ in_u32 (line_len val) /\ in_u32 (line_blen val) /\
  in_u64 (len val) /\ in_u64 (seq_offset val) /\ in_u64 (qual_offset val).

(** The file offset of payload byte [k] under the layout of [val]. *)
Definition payload_offset (val : faidx1_t) (offset k : Z) : Z :=
  offset + k / line_blen val * line_len val + k mod line_blen val.

(** A descriptor whose payload starts at the last offset a [uint64_t]
    can hold. *)
Definition far_chr1 : faidx1_t :=
  {| id_ := 0; line_len := 61; line_blen := 60; len := 180;
     seq_offset := SIZE_MAX; qual_offset := 0 |}.

Definition far_meta : faidx_meta_t :=
  {| n := 1; m := 1; name := ["chr1"%string];
     hash := {["chr1"%string := far_chr1]};
     format := FAI_FASTA; fasta_path := "t.fa"; fai_path := "t.fa.fai";
     gzi_path := "t.fa.gzi"; bgzf_idx := None; ref_count := 2;
     is_bgzf := false |}.

Definition far_reader : faidx_reader_t :=
  {| meta_of := far_meta; bgzf := t_bgzf |}.



(** A world without [t.fa]: opening the decoder fails. *)
Definition empty_world : world :=
  {| w_files := ∅; w_fai := None; w_allocs := []; w_decoders := [] |}.

(** The change of the count an operation stands for. *)
Definition delta (o : op) : Z :=
  (if is_acquire o then 1 else 0) - (if is_release o then 1 else 0).

(** [t_meta] as a load leaves it: one reference. *)
Definition fresh_meta : faidx_meta_t := set_ref_count t_meta 1.

(** A handler under which every allocation and the mutex initialisation
    succeed. *)
Definition all_ok {W : Type} (H : handler W) : Prop :=
  (forall (nbytes : Z) (w : W), fst (H bool (Alloc nbytes) w) = true)
  /\ (forall (out : string) (w : W), fst (H bool (Ksprintf out) w) = true)
  /\ (forall w : W, fst (H bool KhInit w) = true)
  /\ (forall w : W, fst (H Z MutexInit w) = 0).

(** A second record named [chr1], of 90 bases. *)
Definition chr1_again : faidx1_t :=
  {| id_ := 1; line_len := 61; line_blen := 60; len := 90;
     seq_offset := 195; qual_offset := 0 |}.

(** What [fai_load3_format] returns for a [.fai] with the records [chr1]
    and [chr1_again], both named [chr1]: htslib keeps the first record
    under the name ([dup_fai_dropped], the second record is ignored with
    a warning).  [dup_fai_kept] is the other reading, with both records
    counted and named. *)
Definition dup_fai_dropped : faidx_t :=
  {| fai_bgzf := Some t_bgzf; fai_n := 1; fai_m := 16;
     fai_name := ["chr1"%string];
     fai_hash := {["chr1"%string := chr1]};
     fai_format := FAI_FASTA |}.

Definition dup_fai_kept : faidx_t :=
  {| fai_bgzf := Some t_bgzf; fai_n := 2; fai_m := 16;
     fai_name := ["chr1"%string; "chr1"%string];
     fai_hash := {["chr1"%string := chr1]};
     fai_format := FAI_FASTA |}.

Definition fai_answer (fai : faidx_t) : answers :=
  {| a_alloc := true; a_mutex := 0; a_fai := Some fai; a_hopen := None;
     a_open := None; a_seek := 0; a_read := None |}.

Definition dup_world (fai : faidx_t) : world :=
  {| w_files := {["t.fa"%string := t_fa]}; w_fai := Some fai;
     w_allocs := []; w_decoders := [] |}.

Definition byte_of (z : Z) : byte :=
  match Byte.of_N (Z.to_N z) with
  | Some b => b
  | None => Byte.x00
  end.

(** The [k] low bytes of [z], least significant first. *)
Fixpoint le_bytes (k : nat) (z : Z) : list byte :=
  match k with
  | O => []
  | S k' => byte_of (z mod 256) :: le_bytes k' (z / 256)
  end.

(** A [.gzi] announcing two entries: whole, and cut after the first. *)
Definition gzi_whole : list byte :=
  le_bytes 8 2 ++ le_bytes 8 100 ++ le_bytes 8 65280
  ++ le_bytes 8 200 ++ le_bytes 8 130560.

Definition gzi_cut : list byte := take 24 gzi_whole.

(** What [fai_load3_format] returns for the BGZF-compressed [t.fa.gz]. *)
Definition gz_fai : faidx_t :=
  {| fai_bgzf := Some {| fd := 0; is_compressed := true; idx := None |};
     fai_n := 1; fai_m := 16; fai_name := ["chr1"%string];
     fai_hash := {["chr1"%string := chr1]}; fai_format := FAI_FASTA |}.

Definition gz_world (gzi : list byte) (allocs : list bool) : world :=
  {| w_files := {["t.fa.gz.gzi"%string := gzi]}; w_fai := Some gz_fai;
     w_allocs := allocs; w_decoders := [] |}.

(** ** Further parts of the source, and notions to state their properties *)

(** The outcome of [fai_get_val]. *)
Inductive get_val_result : Type :=
| GV_undefined                  (* name[id] lies outside the array *)
| GV_null (len_out : Z)         (* NULL, and the value left in [*len] *)
| GV_val (val : faidx1_t) (fbeg fend : Z).

(** [fai_get_val].  [parsed] is the answer of [faidx_meta_parse_region],
    which is htslib's [hts_parse_region]: [None] for NULL, otherwise the
    sequence id and the two positions. *)
Definition fai_get_val (meta : faidx_meta_t) (parsed : option (Z * Z * Z))
    : get_val_result :=
  match parsed with
  | None => GV_null (-2)
  | Some (tid, beg, end_) =>
      if tid <? 0 then GV_undefined
      else
        match name meta !! Z.to_nat tid with
        | None => GV_undefined
        | Some key =>
            match hash meta !! key with
            | None => GV_null (-2)
            | Some val =>
                let beg :=
                  if len val <=? to_u64 beg then to_i64 (len val) else beg in
                let end_ :=
                  if len val <=? to_u64 end_ then to_i64 (len val)
                  else end_ in
                let beg := if end_ <? beg then end_ else beg in
                GV_val val beg end_
            end
        end
  end.

(** [payload] lies in [content] as the layout of [val] says, counted
    from [offset]: byte [k] of the payload is the byte of the file at
    [offset + k / line_blen * line_len + k mod line_blen]. *)
Definition laid_out (val : faidx1_t) (offset : Z)
    (payload content : list byte) : Prop :=
  forall k : nat,
    (k < length payload)%nat ->
    content !! Z.to_nat (payload_offset val offset (Z.of_nat k))
    = payload !! k.

Definition byte_eqb (a b : byte) : bool :=
  N.eqb (Byte.to_N a) (Byte.to_N b).

Definition laid_out_b (val : faidx1_t) (offset : Z)
    (payload content : list byte) : bool :=
  forallb
    (fun k : nat =>
       match content !! Z.to_nat (payload_offset val offset (Z.of_nat k)),
             payload !! k with
       | Some x, Some y => byte_eqb x y
       | _, _ => false
       end)
    (seq 0 (length payload)).

(** The bytes of [payload] from position [b] up to, not including, [e]. *)
Definition slice (payload : list byte) (b e : Z) : list byte :=
  take (Z.to_nat (e - b)) (drop (Z.to_nat b) payload).

(** The payload of [chr1] in [t_fa]. *)
Definition chr1_payload : list byte := line60 ++ line60 ++ line60.

(** The [.gzi] bytes for a list of (compressed, uncompressed) offsets,
    and the table they stand for. *)
Definition encode_pair (p : Z * Z) : list byte :=
  le_bytes 8 (fst p) ++ le_bytes 8 (snd p).

Definition encode_gzi (pairs : list (Z * Z)) : list byte :=
  le_bytes 8 (Z.of_nat (length pairs)) ++ flat_map encode_pair pairs.

Definition table_of (pairs : list (Z * Z)) : list bgzidx1_t :=
  map (fun p => {| caddr := fst p; uaddr := snd p |}) pairs.

(** References held outside readers along a run: the one of the load,
    plus [faidx_meta_ref] calls, minus [faidx_meta_destroy] calls. *)
Definition is_ref (o : op) : bool :=
  match o with
  | OpRef => true
  | _ => false
  end.

Definition is_destroy (o : op) : bool :=
  match o with
  | OpDestroy => true
  | _ => false
  end.

Definition holders (ops : list op) : Z :=
  1 + count_ops is_ref ops - count_ops is_destroy ops.

(** A FASTQ file with the single read [r1]: ten bases on one line and
    ten quality bytes on one line. *)
Definition r1_bases : list byte :=
  [A_; C_; G_; T_; A_; C_; G_; T_; A_; C_].

Definition r1_quals : list byte :=
  [Byte.x49; Byte.x4a; Byte.x4b; Byte.x4c; Byte.x4d;
   Byte.x49; Byte.x4a; Byte.x4b; Byte.x4c; Byte.x4d].

Definition q_fq : list byte :=
  [Byte.x40; Byte.x72; Byte.x31; NL] ++ r1_bases ++ [NL]
  ++ [Byte.x2b; NL] ++ r1_quals ++ [NL].

Definition r1 : faidx1_t :=
  {| id_ := 0; line_len := 11; line_blen := 10; len := 10;
     seq_offset := 4; qual_offset := 17 |}.

Definition q_meta : faidx_meta_t :=
  {| n := 1; m := 1; name := ["r1"%string];
     hash := {["r1"%string := r1]};
     format := FAI_FASTQ; fasta_path := "q.fq"; fai_path := "q.fq.fai";
     gzi_path := "q.fq.gzi"; bgzf_idx := None; ref_count := 2;
     is_bgzf := false |}.

Definition q_reader : faidx_reader_t := {| meta_of := q_meta; bgzf := t_bgzf |}.

Definition q_world : world :=
  {| w_files := {["q.fq"%string := q_fq]}; w_fai := None; w_allocs := [];
     w_decoders := [(q_fq, 0)] |}.

(** The metadata a load of [t.fa] returns. *)
Definition t_loaded : faidx_meta_t :=
  {| n := 1; m := 16; name := ["chr1"%string];
     hash := {["chr1"%string := chr1]}; format := FAI_FASTA;
     fasta_path := "t.fa"; fai_path := "t.fa.fai"; gzi_path := "t.fa.gzi";
     bgzf_idx := None; ref_count := 1; is_bgzf := false |}.

(** Decoder [d] of the world is open on [content] at position [pos], and
    no allocation is scripted to fail. *)
Definition reading (w : world) (d : nat) (content : list byte) (pos : Z)
    : Prop :=
  w_allocs w = [] /\ w_decoders w !! d = Some (content, pos).

(** * Properties *)

(** ** Integer conversions *)

Ltac unfold_cint :=
  unfold seek_target, buffer_size, u64_add, u64_sub, i64_add, i64_sub,
    i64_mul, to_u64, to_i64, to_i32, in_i64, in_u64, in_u32, in_int,
    SIZE_MAX, INT64_MAX, INT64_MIN, INT_MAX, INT_MIN,
    two64, two63, two32, two31 in *.

Ltac cint_lia := unfold_cint; Z.to_euclidean_division_equations; lia.

(** Case analysis on every integer comparison in sight. *)
Ltac case_cmp :=
  repeat match goal with
         | |- context [Z.ltb ?x ?y] => destruct (Z.ltb_spec x y)
         | |- context [Z.leb ?x ?y] => destruct (Z.leb_spec x y)
         | H : context [Z.ltb ?x ?y] |- _ => destruct (Z.ltb_spec x y)
         | H : context [Z.leb ?x ?y] |- _ => destruct (Z.leb_spec x y)
         end.

Lemma to_u64_small (z : Z) : 0 <= z <= SIZE_MAX -> to_u64 z = z.
Proof. intros Hz. unfold to_u64. apply Z.mod_small. cint_lia. Qed.

Lemma to_i64_small (z : Z) : in_i64 z -> to_i64 z = z.
Proof. intros Hz. cint_lia. Qed.

Lemma to_i32_small (z : Z) : in_int z -> to_i32 z = z.
Proof. intros Hz. cint_lia. Qed.

Lemma to_u64_range (z : Z) : 0 <= to_u64 z <= SIZE_MAX.
Proof. cint_lia. Qed.

Lemma u64_sub_to_u64 (a b : Z) : u64_sub (to_u64 a) (to_u64 b) = to_u64 (a - b).
Proof. unfold u64_sub, to_u64. symmetry. apply Zminus_mod. Qed.

Lemma seek_target_exact (val : faidx1_t) (offset beg : Z) :
  1 <= line_blen val -> 0 <= line_len val -> 0 <= offset -> 0 <= beg ->
  payload_offset val offset beg <= INT64_MAX ->
  seek_target val offset beg = payload_offset val offset beg.
Proof.
  intros Hb Hl Ho Hbeg Hmax. unfold seek_target, payload_offset in *.
  rewrite Z.quot_div_nonneg, Z.rem_mod_nonneg by lia.
  assert (Hq : 0 <= beg / line_blen val) by (apply Z.div_pos; lia).
  assert (Hr : 0 <= beg mod line_blen val < line_blen val)
    by (apply Z.mod_pos_bound; lia).
  assert (Hp : 0 <= beg / line_blen val * line_len val) by nia.
  unfold i64_mul. rewrite (to_i64_small (_ * _)) by (unfold_cint; lia).
  rewrite (to_u64_small (_ * _)) by (unfold_cint; lia).
  rewrite (to_u64_small (_ mod _)) by (unfold_cint; lia).
  unfold u64_add.
  rewrite (to_u64_small (offset + _)) by (unfold_cint; lia).
  rewrite to_u64_small by (unfold_cint; lia).
  apply to_i64_small. unfold_cint; lia.
Qed.

(** Past its two guards [fai_retrieve] starts with the seek. *)
Lemma fai_retrieve_first_seek (b : BGZF) (val : faidx1_t) (offset beg end_ : Z) :
  u64_sub (to_u64 end_) (to_u64 beg) < SIZE_MAX - 2 ->
  1 <= line_blen val ->
  first_seek (fai_retrieve b val offset beg end_)
  = Some (seek_target val offset beg).
Proof.
  intros Hg Hb. unfold fai_retrieve.
  destruct (Z.leb_spec (SIZE_MAX - 2) (u64_sub (to_u64 end_) (to_u64 beg)));
    [lia |].
  destruct (Z.leb_spec (line_blen val) 0); [lia |].
  reflexivity.
Qed.

(** What [faidx_adjust_position] leaves in [*p_beg_i] and [*p_end_i] when
    the begin it leaves is a position of the sequence. *)
Lemma adjust_begin_inside (meta : faidx_meta_t) (c_name : string)
    (p_beg_i p_end_i : Z) (val : faidx1_t) (b e : Z) :
  faidx_adjust_position meta 1 c_name p_beg_i p_end_i = Some (val, b, e) ->
  in_i64 p_beg_i -> in_i64 p_end_i -> in_u64 (len val) ->
  0 <= b < len val ->
  hash meta !! c_name = Some val /\ b <= e <= INT64_MAX.
Proof.
  unfold faidx_adjust_position. intros Hadj Hpb Hpe Hlen Hb.
  destruct (hash meta !! c_name) as [v|] eqn:Hlk; [| discriminate].
  injection Hadj as -> Hbeg Hend. split; [reflexivity |].
  revert Hbeg Hend. case_cmp; intros; subst; cint_lia.
Qed.

(** ** Where a fetch seeks *)

(** C1, as amended.  Let [faidx_adjust_position] leave begin [b] with
    [0 <= b < length] for a descriptor with [line_blen >= 1].  If
    [seq_offset + (b / line_blen) * line_len + b mod line_blen] does not
    exceed the largest [off_t], the first thing [faidx_reader_fetch_seq]
    does to the decoder is to seek to exactly that offset, before any
    read. *)
Theorem fetch_seq_seek_offset (reader : faidx_reader_t) (c_name : string)
    (p_beg_i p_end_i : Z) (val : faidx1_t) (b e : Z) :
  faidx_adjust_position (meta_of reader) 1 c_name p_beg_i p_end_i
    = Some (val, b, e) ->
  in_i64 p_beg_i -> in_i64 p_end_i ->
  wf_faidx1 val -> 1 <= line_blen val ->
  0 <= b < len val ->
  seq_offset val + b / line_blen val * line_len val + b mod line_blen val
    <= INT64_MAX ->
  first_seek (faidx_reader_fetch_seq reader c_name p_beg_i p_end_i)
  = Some (seq_offset val + b / line_blen val * line_len val
          + b mod line_blen val).
Proof.
  intros Hadj Hpb Hpe (_ & Hll & _ & Hlen & Hoff & _) Hbl Hb Hmax.
  destruct (adjust_begin_inside _ _ _ _ _ _ _ Hadj Hpb Hpe Hlen Hb)
    as [_ Hbe].
  unfold faidx_reader_fetch_seq. rewrite Hadj.
  rewrite fai_retrieve_first_seek; [| cint_lia | assumption].
  f_equal. apply seek_target_exact; try assumption; unfold_cint; lia.
Qed.

Lemma fetch_seq_seek_offset_witness :
  first_seek (faidx_reader_fetch_seq t_reader "chr1" 61 70)
  = Some (6 + 61 / 60 * 61 + 61 mod 60).
Proof.
  apply (fetch_seq_seek_offset t_reader "chr1" 61 70 chr1 61 70).
  - reflexivity.
  - unfold_cint; lia.
  - unfold_cint; lia.
  - unfold wf_faidx1; simpl; unfold_cint; lia.
  - simpl; lia.
  - simpl; lia.
  - vm_compute; discriminate.
Defined.

(** C1 as stated fails: with [seq_offset = 2^64 - 1], [line_blen = 60]
    and clamped begin 1 the claimed offset is [2^64], and the 64-bit sum
    the code forms wraps to 0, where it seeks. *)
Lemma seek_offset_wraps :
  ~ (forall (reader : faidx_reader_t) (c_name : string)
       (p_beg_i p_end_i : Z) (val : faidx1_t) (b e : Z),
       faidx_adjust_position (meta_of reader) 1 c_name p_beg_i p_end_i
         = Some (val, b, e) ->
       in_i64 p_beg_i -> in_i64 p_end_i ->
       wf_faidx1 val -> 1 <= line_blen val ->
       0 <= b < len val ->
       first_seek (faidx_reader_fetch_seq reader c_name p_beg_i p_end_i)
       = Some (seq_offset val + b / line_blen val * line_len val
               + b mod line_blen val)).
Proof.
  intros H.
  specialize (H far_reader "chr1"%string 1 10 far_chr1 1 10).
  assert (Hseek : first_seek (faidx_reader_fetch_seq far_reader "chr1" 1 10)
                  = Some 0) by reflexivity.
  rewrite Hseek in H.
  assert (Hneq : Some 0
                 <> Some (seq_offset far_chr1
                          + 1 / line_blen far_chr1 * line_len far_chr1
                          + 1 mod line_blen far_chr1))
    by (vm_compute; discriminate).
  apply Hneq, H.
  - reflexivity.
  - unfold_cint; lia.
  - unfold_cint; lia.
  - unfold wf_faidx1; simpl; unfold_cint; lia.
  - simpl; lia.
  - simpl; lia.
Qed.

(** ** Clamping of the end coordinate *)

(** C4.  For a sequence of length [L] in the index, a begin [b] with
    [0 <= b < L] and any end [e >= L - 1], [faidx_reader_fetch_seq] with
    [(b, e)] is the same program as with [(b, L - 1)]: run from the same
    decoder state it returns the same bytes and the same length. *)
Theorem fetch_seq_end_clamp (reader : faidx_reader_t) (c_name : string)
    (val : faidx1_t) (b e : Z) :
  hash (meta_of reader) !! c_name = Some val ->
  in_u64 (len val) ->
  0 <= b < len val ->
  len val - 1 <= e -> in_i64 e ->
  faidx_reader_fetch_seq reader c_name b e
    = faidx_reader_fetch_seq reader c_name b (len val - 1)
  /\ forall (W : Type) (H : handler W) (w : W),
       run H (faidx_reader_fetch_seq reader c_name b e) w
       = run H (faidx_reader_fetch_seq reader c_name b (len val - 1)) w.
Proof.
  intros Hlk Hlen Hb He Hi.
  assert (Heq : faidx_adjust_position (meta_of reader) 1 c_name b e
                = faidx_adjust_position (meta_of reader) 1 c_name b
                    (len val - 1)).
  { unfold faidx_adjust_position. rewrite Hlk. case_cmp;
      first [reflexivity | exfalso; cint_lia | repeat f_equal; cint_lia]. }
  assert (Hprog : faidx_reader_fetch_seq reader c_name b e
                  = faidx_reader_fetch_seq reader c_name b (len val - 1))
    by (unfold faidx_reader_fetch_seq; rewrite Heq; reflexivity).
  split; [exact Hprog |]. intros W H w. rewrite Hprog. reflexivity.
Qed.

Lemma fetch_seq_end_clamp_witness :
  faidx_reader_fetch_seq t_reader "chr1" 120 1000
    = faidx_reader_fetch_seq t_reader "chr1" 120 (len chr1 - 1)
  /\ forall (W : Type) (H : handler W) (w : W),
       run H (faidx_reader_fetch_seq t_reader "chr1" 120 1000) w
       = run H (faidx_reader_fetch_seq t_reader "chr1" 120 (len chr1 - 1)) w.
Proof.
  apply (fetch_seq_end_clamp t_reader "chr1" chr1 120 1000).
  - reflexivity.
  - simpl; unfold_cint; lia.
  - simpl; lia.
  - simpl; lia.
  - unfold_cint; lia.
Defined.

(** ** Refusals *)

(** C8.  On a reader whose index has format FASTA,
    [faidx_reader_fetch_qual] returns NULL with [*len = -2] for every
    name and all coordinates, and it performs no action at all: the
    program is a bare return, so no handler sees a seek or a read and the
    decoder state is untouched. *)
Theorem fetch_qual_on_fasta (reader : faidx_reader_t) (c_name : string)
    (p_beg_i p_end_i : Z) :
  format (meta_of reader) = FAI_FASTA ->
  faidx_reader_fetch_qual reader c_name p_beg_i p_end_i = Ret (None, -2)
  /\ forall (W : Type) (H : handler W) (w : W),
       run H (faidx_reader_fetch_qual reader c_name p_beg_i p_end_i) w
       = ((None, -2), w).
Proof.
  intros Hf.
  assert (Hprog : faidx_reader_fetch_qual reader c_name p_beg_i p_end_i
                  = Ret (None, -2))
    by (unfold faidx_reader_fetch_qual; rewrite Hf; reflexivity).
  split; [exact Hprog |]. intros W H w. rewrite Hprog. reflexivity.
Qed.

Lemma fetch_qual_on_fasta_witness :
  faidx_reader_fetch_qual t_reader "chr1" 0 9 = Ret (None, -2)
  /\ forall (W : Type) (H : handler W) (w : W),
       run H (faidx_reader_fetch_qual t_reader "chr1" 0 9) w = ((None, -2), w).
Proof. apply (fetch_qual_on_fasta t_reader "chr1" 0 9). reflexivity. Defined.




(** ** Ranges that collapse *)

Lemma run_act {W A R : Type} (H : handler W) (a : action R) (k : R -> io A)
    (w w' : W) (r : R) :
  H R a w = (r, w') -> run H (Act a k) w = run H (k r) w'.
Proof. intros Ha. simpl. rewrite Ha. reflexivity. Qed.

(** A range that lies within one line: one seek, one allocation and one
    read of exactly the bytes asked for. *)
Lemma fai_retrieve_short_run {W : Type} (H : handler W) (w w1 w2 w3 : W)
    (ret : Z) (b : BGZF) (val : faidx1_t) (offset beg end_ : Z)
    (data : list byte) :
  1 <= line_blen val -> in_i64 beg -> in_i64 end_ -> 0 <= beg ->
  0 <= end_ - beg <= line_blen val - beg mod line_blen val ->
  H Z (BgzfUseek (fd b) (seek_target val offset beg)) w = (ret, w1) ->
  0 <= ret ->
  H bool (Alloc (buffer_size val beg end_)) w1 = (true, w2) ->
  H _ (BgzfRead (fd b) (end_ - beg)) w2 = (Some data, w3) ->
  Z.of_nat (length data) = end_ - beg ->
  run H (fai_retrieve b val offset beg end_) w = ((Some data, end_ - beg), w3).
Proof.
  intros Hbl Hbeg Hend Hpos Hfit Hseek Hret Halloc Hread Hlen.
  unfold fai_retrieve.
  rewrite u64_sub_to_u64, (to_u64_small (end_ - beg)) by cint_lia.
  destruct (Z.leb_spec (SIZE_MAX - 2) (end_ - beg)); [cint_lia |].
  destruct (Z.leb_spec (line_blen val) 0); [lia |].
  rewrite (run_act _ _ _ _ _ _ Hseek).
  destruct (Z.ltb_spec ret 0); [lia |].
  rewrite (run_act _ _ _ _ _ _ Halloc). cbn [negb].
  unfold i64_sub. rewrite (to_i64_small (end_ - beg)) by cint_lia.
  rewrite Z.rem_mod_nonneg by lia.
  destruct (Z.leb_spec (end_ - beg) (line_blen val - beg mod line_blen val));
    [| lia].
  rewrite (to_u64_small (end_ - beg)) by cint_lia.
  rewrite (run_act _ _ _ _ _ _ Hread). cbn [nread_of data_of].
  destruct (Z.ltb_spec (Z.of_nat (length data)) (end_ - beg)); [lia |].
  reflexivity.
Qed.

(** With begin and end both at or past the length [L], the range
    collapses to [L, L). *)
Lemma fetch_seq_past_end (reader : faidx_reader_t) (c_name : string)
    (val : faidx1_t) (p_beg_i p_end_i : Z) :
  hash (meta_of reader) !! c_name = Some val ->
  in_u64 (len val) -> in_i64 p_beg_i -> in_i64 p_end_i ->
  len val <= p_beg_i -> len val <= p_end_i ->
  faidx_reader_fetch_seq reader c_name p_beg_i p_end_i
  = fai_retrieve (bgzf reader) val (seq_offset val) (len val) (len val).
Proof.
  intros Hlk Hlen Hpb Hpe Hb He.
  unfold faidx_reader_fetch_seq, faidx_adjust_position. rewrite Hlk.
  case_cmp; try (exfalso; cint_lia); f_equal; cint_lia.
Qed.

(** With the end one before the begin and the begin at most [L], the
    range collapses to the single position [max (b - 1) 0]. *)
Lemma fetch_seq_one_before (reader : faidx_reader_t) (c_name : string)
    (val : faidx1_t) (b : Z) :
  hash (meta_of reader) !! c_name = Some val ->
  in_u64 (len val) -> in_i64 b -> in_i64 (b - 1) ->
  b <= len val ->
  faidx_reader_fetch_seq reader c_name b (b - 1)
  = fai_retrieve (bgzf reader) val (seq_offset val)
      (Z.max (b - 1) 0) (Z.max (b - 1) 0 + 1).
Proof.
  intros Hlk Hlen Hb Hb1 Hle.
  unfold faidx_reader_fetch_seq, faidx_adjust_position. rewrite Hlk.
  case_cmp; try (exfalso; cint_lia); f_equal; cint_lia.
Qed.

Lemma fetch_seq_empty_run {W : Type} (H : handler W) (w w1 w2 w3 : W)
    (ret : Z) (reader : faidx_reader_t) (c_name : string) (val : faidx1_t)
    (p_beg_i p_end_i : Z) :
  hash (meta_of reader) !! c_name = Some val ->
  wf_faidx1 val -> 1 <= line_blen val ->
  in_i64 p_beg_i -> in_i64 p_end_i ->
  len val <= p_beg_i -> len val <= p_end_i ->
  H Z (BgzfUseek (fd (bgzf reader))
         (seek_target val (seq_offset val) (len val))) w = (ret, w1) ->
  0 <= ret ->
  H bool (Alloc (buffer_size val (len val) (len val))) w1 = (true, w2) ->
  H _ (BgzfRead (fd (bgzf reader)) 0) w2 = (Some [], w3) ->
  run H (faidx_reader_fetch_seq reader c_name p_beg_i p_end_i) w
  = ((Some [], 0), w3).
Proof.
  intros Hlk (_ & _ & _ & Hlen & _) Hbl Hpb Hpe Hb He Hseek Hret Halloc Hread.
  rewrite (fetch_seq_past_end _ _ _ _ _ Hlk Hlen Hpb Hpe Hb He).
  assert (Hz : len val - len val = 0) by lia.
  assert (Hmod : 0 <= len val mod line_blen val < line_blen val)
    by (apply Z.mod_pos_bound; lia).
  pose proof (fai_retrieve_short_run H w w1 w2 w3 ret (bgzf reader) val
                (seq_offset val) (len val) (len val) []) as Hrun.
  rewrite Hz in Hrun.
  apply Hrun; try assumption; try reflexivity; cint_lia.
Qed.

(** C2, as amended.  For a sequence in the index with [line_blen >= 1]
    and length [L], [fetch_seq(s, b, b-1)] first sets begin to [b - 1].
    If [b > L] the range is clamped to the empty [L, L) and, the seek and
    the allocation succeeding, the call returns zero bytes with length 0.
    If [b <= L] the range is the single position [max (b - 1) 0]: one
    byte is read there and the call returns it with length 1. *)
Theorem fetch_seq_end_before_begin {W : Type} (H : handler W)
    (w w1 w2 w3 : W) (ret : Z) (reader : faidx_reader_t) (c_name : string)
    (val : faidx1_t) (b : Z) :
  hash (meta_of reader) !! c_name = Some val ->
  wf_faidx1 val -> 1 <= line_blen val ->
  in_i64 b -> in_i64 (b - 1) ->
  (len val < b ->
   H Z (BgzfUseek (fd (bgzf reader))
          (seek_target val (seq_offset val) (len val))) w = (ret, w1) ->
   0 <= ret ->
   H bool (Alloc (buffer_size val (len val) (len val))) w1 = (true, w2) ->
   H _ (BgzfRead (fd (bgzf reader)) 0) w2 = (Some [], w3) ->
   run H (faidx_reader_fetch_seq reader c_name b (b - 1)) w
   = ((Some [], 0), w3))
  /\ (b <= len val ->
      forall x : byte,
      H Z (BgzfUseek (fd (bgzf reader))
             (seek_target val (seq_offset val) (Z.max (b - 1) 0))) w
        = (ret, w1) ->
      0 <= ret ->
      H bool (Alloc (buffer_size val (Z.max (b - 1) 0) (Z.max (b - 1) 0 + 1)))
        w1 = (true, w2) ->
      H _ (BgzfRead (fd (bgzf reader)) 1) w2 = (Some [x], w3) ->
      run H (faidx_reader_fetch_seq reader c_name b (b - 1)) w
      = ((Some [x], 1), w3)).
Proof.
  intros Hlk Hwf Hbl Hb Hb1. split.
  - intros Hpast Hseek Hret Halloc Hread.
    eapply fetch_seq_empty_run; eauto; lia.
  - intros Hle x Hseek Hret Halloc Hread.
    destruct Hwf as (_ & _ & _ & Hlen & _).
    rewrite (fetch_seq_one_before _ _ _ _ Hlk Hlen Hb Hb1 Hle).
    set (pos := Z.max (b - 1) 0) in *.
    assert (Hone : pos + 1 - pos = 1) by lia.
    assert (Hmod : 0 <= pos mod line_blen val < line_blen val)
      by (apply Z.mod_pos_bound; lia).
    pose proof (fai_retrieve_short_run H w w1 w2 w3 ret (bgzf reader) val
                  (seq_offset val) pos (pos + 1) [x]) as Hrun.
    rewrite Hone in Hrun.
    apply Hrun; try assumption; try reflexivity; subst pos; cint_lia.
Qed.

Lemma fetch_seq_end_before_begin_witness :
  run sim (faidx_reader_fetch_seq t_reader "chr1" 181 (181 - 1)) t_world
    = ((Some [], 0), set_decoders t_world [(t_fa, 189)])
  /\ run sim (faidx_reader_fetch_seq t_reader "chr1" 5 (5 - 1)) t_world
     = ((Some [A_], 1), set_decoders t_world [(t_fa, 11)]).
Proof.
  split.
  - refine (proj1 (fetch_seq_end_before_begin sim t_world
                     (set_decoders t_world [(t_fa, 189)])
                     (set_decoders t_world [(t_fa, 189)])
                     (set_decoders t_world [(t_fa, 189)])
                     0 t_reader "chr1" chr1 181 _ _ _ _ _) _ _ _ _ _);
      try reflexivity; try (unfold wf_faidx1; simpl); unfold_cint; lia.
  - refine (proj2 (fetch_seq_end_before_begin sim t_world
                     (set_decoders t_world [(t_fa, 10)])
                     (set_decoders t_world [(t_fa, 10)])
                     (set_decoders t_world [(t_fa, 11)])
                     0 t_reader "chr1" chr1 5 _ _ _ _ _) _ A_ _ _ _ _);
      try reflexivity; try (unfold wf_faidx1; simpl); unfold_cint; lia.
Defined.

(** C2 as stated fails: on the 180-base [chr1],
    [fetch_seq("chr1", 5, 4)] returns one byte, the base at position 4,
    with length 1. *)
Lemma end_before_begin_one_byte :
  hash (meta_of t_reader) !! "chr1"%string = Some chr1
  /\ fst (run sim (faidx_reader_fetch_seq t_reader "chr1" 5 4) t_world)
     = (Some [A_], 1)
  /\ fst (run sim (faidx_reader_fetch_seq t_reader "chr1" 5 4) t_world)
     <> (Some [], 0).
Proof.
  split; [reflexivity |]. split; [reflexivity |].
  vm_compute. discriminate.
Qed.

(** C3, as amended.  For a sequence of length [L] in the index with
    [line_blen >= 1], a call of [fetch_seq] with begin greater than [L]
    and end at least [L] (so every call with [begin <= end]) has begin
    clamped to [L] and, the seek and the allocation succeeding, returns a
    successful empty result with length 0. *)
Theorem fetch_seq_begin_past_length {W : Type} (H : handler W)
    (w w1 w2 w3 : W) (ret : Z) (reader : faidx_reader_t) (c_name : string)
    (val : faidx1_t) (p_beg_i p_end_i : Z) :
  hash (meta_of reader) !! c_name = Some val ->
  wf_faidx1 val -> 1 <= line_blen val ->
  in_i64 p_beg_i -> in_i64 p_end_i ->
  len val < p_beg_i -> len val <= p_end_i ->
  H Z (BgzfUseek (fd (bgzf reader))
         (seek_target val (seq_offset val) (len val))) w = (ret, w1) ->
  0 <= ret ->
  H bool (Alloc (buffer_size val (len val) (len val))) w1 = (true, w2) ->
  H _ (BgzfRead (fd (bgzf reader)) 0) w2 = (Some [], w3) ->
  (exists e : Z,
     faidx_adjust_position (meta_of reader) 1 c_name p_beg_i p_end_i
     = Some (val, len val, e))
  /\ run H (faidx_reader_fetch_seq reader c_name p_beg_i p_end_i) w
     = ((Some [], 0), w3).
Proof.
  intros Hlk Hwf Hbl Hpb Hpe Hb He Hseek Hret Halloc Hread. split.
  - unfold faidx_adjust_position. rewrite Hlk.
    destruct Hwf as (_ & _ & _ & Hlen & _).
    eexists. do 2 f_equal. f_equal.
    case_cmp; try (exfalso; cint_lia); cint_lia.
  - eapply fetch_seq_empty_run; eauto; lia.
Qed.

Lemma fetch_seq_begin_past_length_witness :
  (exists e : Z,
     faidx_adjust_position (meta_of t_reader) 1 "chr1" 200 300
     = Some (chr1, len chr1, e))
  /\ run sim (faidx_reader_fetch_seq t_reader "chr1" 200 300) t_world
     = ((Some [], 0), set_decoders t_world [(t_fa, 189)]).
Proof.
  apply (fetch_seq_begin_past_length sim t_world
           (set_decoders t_world [(t_fa, 189)])
           (set_decoders t_world [(t_fa, 189)])
           (set_decoders t_world [(t_fa, 189)])
           0 t_reader "chr1" chr1 200 300);
    try reflexivity; try (unfold wf_faidx1; simpl); unfold_cint; lia.
Defined.

(** C3 as stated fails: on the 180-base [chr1],
    [fetch_seq("chr1", 200, 100)] has begin 200 > 180, yet begin is set
    to the end, 100, and the call returns the base there with length 1. *)
Lemma begin_past_length_one_byte :
  hash (meta_of t_reader) !! "chr1"%string = Some chr1
  /\ len chr1 < 200
  /\ faidx_adjust_position (meta_of t_reader) 1 "chr1" 200 100
     = Some (chr1, 100, 100)
  /\ fst (run sim (faidx_reader_fetch_seq t_reader "chr1" 200 100) t_world)
     = (Some [A_], 1).
Proof.
  split; [reflexivity |]. split; [reflexivity |]. split; reflexivity.
Qed.

(** ** Reference counts *)

Lemma run_bind {W A B : Type} (H : handler W) (p : io A) (f : A -> io B)
    (w : W) :
  run H (bind p f) w = let '(a, w') := run H p w in run H (f a) w'.
Proof.
  revert w. induction p as [a | R a k IH]; intros w; simpl.
  - reflexivity.
  - destruct (H R a w) as [r w']. apply IH.
Qed.

Lemma set_ref_count_same (mt : faidx_meta_t) :
  set_ref_count mt (ref_count mt) = mt.
Proof. destruct mt; reflexivity. Qed.

Lemma set_ref_count_twice (mt : faidx_meta_t) (a b : Z) :
  set_ref_count (set_ref_count mt a) b = set_ref_count mt b.
Proof. reflexivity. Qed.

(** [faidx_meta_ref] on live storage, below [INT_MAX]. *)
Lemma faidx_meta_ref_live (mt : faidx_meta_t) :
  in_int (ref_count mt) -> ref_count mt < INT_MAX ->
  faidx_meta_ref Ptr (Live mt)
  = Some (Live (set_ref_count mt (ref_count mt + 1))).
Proof.
  intros Hin Hlt. unfold faidx_meta_ref.
  rewrite to_i32_small by (unfold_cint; lia). reflexivity.
Qed.

(** [faidx_meta_destroy] on live storage: the last reference frees. *)
Lemma faidx_meta_destroy_live (mt : faidx_meta_t) :
  1 <= ref_count mt <= INT_MAX ->
  faidx_meta_destroy Ptr (Live mt)
  = Some (if ref_count mt =? 1 then Freed
          else Live (set_ref_count mt (ref_count mt - 1))).
Proof.
  intros Hrc. unfold faidx_meta_destroy.
  rewrite to_i32_small by (unfold_cint; lia). cbn [ref_count set_ref_count].
  destruct (Z.leb_spec (ref_count mt - 1) 0), (Z.eqb_spec (ref_count mt) 1);
    try reflexivity; lia.
Qed.

(** Taking a reference and giving it back restores the object, also at
    [INT_MAX], where the increment wraps. *)
Lemma ref_then_destroy (mt : faidx_meta_t) :
  1 <= ref_count mt <= INT_MAX ->
  faidx_meta_destroy Ptr
    (Live (set_ref_count mt (to_i32 (ref_count mt + 1))))
  = Some (Live mt).
Proof.
  intros Hrc. unfold faidx_meta_destroy. cbn [ref_count set_ref_count].
  assert (Hback : to_i32 (to_i32 (ref_count mt + 1) - 1) = ref_count mt)
    by cint_lia.
  rewrite Hback.
  destruct (Z.leb_spec (ref_count mt) 0); [lia |].
  destruct mt; reflexivity.
Qed.

(** What [faidx_reader_create] does under a handler, by the answers to
    its two calls. *)
Lemma reader_create_run {W : Type} (H : handler W) (w w1 w2 : W)
    (mt : faidx_meta_t) (opened : option BGZF) :
  H bool (Alloc sizeof_reader) w = (true, w1) ->
  H _ (BgzfOpen (fasta_path mt)) w1 = (opened, w2) ->
  run H (faidx_reader_create Ptr (Live mt)) w
  = (let mt' := set_ref_count mt (to_i32 (ref_count mt + 1)) in
     match opened with
     | None => (faidx_meta_destroy Ptr (Live mt'), None)
     | Some b =>
         (Some (Live mt'),
          Some {| meta_of := mt';
                  bgzf := if is_bgzf mt
                          then {| fd := fd b; is_compressed := is_compressed b;
                                  idx := bgzf_idx mt |}
                          else b |})
     end, w2).
Proof.
  intros Halloc Hopen. unfold faidx_reader_create.
  rewrite (run_act _ _ _ _ _ _ Halloc). cbn [negb faidx_meta_ref].
  rewrite run_bind. cbn [is_bgzf set_ref_count fasta_path bgzf_idx].
  unfold bgzf_open_shared_idx.
  destruct (is_bgzf mt); rewrite (run_act _ _ _ _ _ _ Hopen);
    destruct opened; reflexivity.
Qed.

Lemma reader_create_no_memory {W : Type} (H : handler W) (w w1 : W)
    (mem : cell) :
  H bool (Alloc sizeof_reader) w = (false, w1) ->
  run H (faidx_reader_create Ptr mem) w = ((Some mem, None), w1).
Proof.
  intros Halloc. unfold faidx_reader_create.
  rewrite (run_act _ _ _ _ _ _ Halloc). reflexivity.
Qed.

(** C10.  Let [meta] be a live metadata object (its count is at least 1).
    If [faidx_reader_create] gets its reader allocated and the decoder
    cannot be opened on [fasta_path], it returns NULL and the metadata is
    exactly as before the call, [ref_count] included: the reference taken
    at entry is given back. *)
Theorem reader_create_open_failure {W : Type} (H : handler W) (w w1 w2 : W)
    (mt : faidx_meta_t) :
  1 <= ref_count mt <= INT_MAX ->
  H bool (Alloc sizeof_reader) w = (true, w1) ->
  H _ (BgzfOpen (fasta_path mt)) w1 = (None, w2) ->
  run H (faidx_reader_create Ptr (Live mt)) w = ((Some (Live mt), None), w2).
Proof.
  intros Hrc Halloc Hopen.
  rewrite (reader_create_run H w w1 w2 mt None Halloc Hopen).
  cbv zeta. rewrite ref_then_destroy by assumption. reflexivity.
Qed.

Lemma reader_create_open_failure_witness :
  run sim (faidx_reader_create Ptr (Live t_meta)) empty_world
  = ((Some (Live t_meta), None), empty_world).
Proof.
  apply (reader_create_open_failure sim empty_world empty_world empty_world
           t_meta).
  - simpl. unfold_cint. lia.
  - reflexivity.
  - reflexivity.
Defined.

Lemma balance_cons (o : op) (ops : list op) :
  acquires (o :: ops) - releases (o :: ops)
  = delta o + (acquires ops - releases ops).
Proof. unfold acquires, releases, delta. simpl. lia. Qed.

(** One operation on live storage. *)
Lemma exec_op_live (o : op) (mt : faidx_meta_t) (rs : list faidx_reader_t)
    (st1 : rstate) :
  1 <= ref_count mt -> ref_count mt < INT_MAX ->
  exec_op o (Live mt, rs) = Some st1 ->
  fst st1 = if ref_count mt + delta o =? 0 then Freed
            else Live (set_ref_count mt (ref_count mt + delta o)).
Proof.
  intros Hlo Hhi Hex.
  assert (Hin : in_int (ref_count mt)) by (unfold_cint; lia).
  assert (Hdes : faidx_meta_destroy Ptr (Live mt)
                 = Some (if ref_count mt + -1 =? 0 then Freed
                         else Live (set_ref_count mt (ref_count mt + -1)))).
  { rewrite faidx_meta_destroy_live by (unfold_cint; lia).
    replace (ref_count mt + -1) with (ref_count mt - 1) by lia.
    destruct (Z.eqb_spec (ref_count mt) 1), (Z.eqb_spec (ref_count mt - 1) 0);
      try reflexivity; lia. }
  destruct o as [| | reader_ok opened | i]; cbn [exec_op] in Hex.
  - rewrite faidx_meta_ref_live in Hex by assumption.
    injection Hex as <-. unfold delta; cbn [fst is_acquire is_release].
    destruct (Z.eqb_spec (ref_count mt + (1 - 0)) 0); [lia |].
    do 2 f_equal; lia.
  - rewrite Hdes in Hex. injection Hex as <-. exact eq_refl.
  - destruct reader_ok.
    + rewrite (reader_create_run _ tt tt tt mt opened eq_refl eq_refl) in Hex.
      cbv zeta in Hex. destruct opened as [bz |].
      * cbn [fst] in Hex. injection Hex as <-.
        unfold delta; cbn [fst is_acquire is_release].
        rewrite to_i32_small by (unfold_cint; lia).
        destruct (Z.eqb_spec (ref_count mt + (1 - 0)) 0); [lia |].
        do 2 f_equal; lia.
      * rewrite ref_then_destroy in Hex by lia. cbn [fst] in Hex.
        injection Hex as <-. unfold delta; cbn [fst is_acquire is_release].
        destruct (Z.eqb_spec (ref_count mt + (0 - 0)) 0); [lia |].
        rewrite Z.add_0_r, set_ref_count_same. reflexivity.
    + rewrite (reader_create_no_memory _ tt tt (Live mt) eq_refl) in Hex.
      cbn [fst] in Hex. injection Hex as <-.
      unfold delta; cbn [fst is_acquire is_release].
      destruct (Z.eqb_spec (ref_count mt + (0 - 0)) 0); [lia |].
      rewrite Z.add_0_r, set_ref_count_same. reflexivity.
  - destruct (rs !! i) as [r |]; [| discriminate].
    cbn [faidx_reader_destroy] in Hex. rewrite Hdes in Hex.
    injection Hex as <-. exact eq_refl.
Qed.

(** Once the storage is freed, only a reader creation whose allocation
    fails is defined; it takes no reference. *)
Lemma exec_freed (ops : list op) :
  forall (rs : list faidx_reader_t) (st : rstate),
    exec ops (Freed, rs) = Some st ->
    fst st = Freed /\ acquires ops - releases ops = 0.
Proof.
  induction ops as [| o rest IH]; intros rs st Hex.
  - injection Hex as <-. split; reflexivity.
  - cbn [exec] in Hex.
    destruct o as [| | reader_ok opened | i]; cbn [exec_op] in Hex;
      try discriminate.
    + destruct reader_ok.
      * simpl in Hex. discriminate.
      * rewrite (reader_create_no_memory _ tt tt Freed eq_refl) in Hex.
        cbn [fst] in Hex. rewrite balance_cons.
        destruct (IH _ _ Hex) as [Hf Hb]. split; [exact Hf |].
        rewrite Hb. reflexivity.
    + destruct (rs !! i); discriminate.
Qed.

Lemma exec_balance (ops : list op) :
  forall (mt : faidx_meta_t) (rs : list faidx_reader_t) (st : rstate),
    1 <= ref_count mt ->
    ref_count mt + Z.of_nat (length ops) <= INT_MAX ->
    exec ops (Live mt, rs) = Some st ->
    let b := ref_count mt + (acquires ops - releases ops) in
    0 <= b /\ (fst st = Freed <-> b = 0)
    /\ (0 < b -> fst st = Live (set_ref_count mt b)).
Proof.
  induction ops as [| o rest IH]; intros mt rs st Hlo Hhi Hex b.
  - injection Hex as <-. subst b. unfold acquires, releases. simpl.
    rewrite Z.add_0_r, set_ref_count_same.
    split; [lia |]. split; [| reflexivity].
    split; [discriminate | lia].
  - cbn [exec] in Hex. cbn [length] in Hhi.
    destruct (exec_op o (Live mt, rs)) as [[mem1 rs1] |] eqn:Hop;
      [| discriminate].
    pose proof (exec_op_live o mt rs _ Hlo ltac:(lia) Hop) as Hstep.
    cbn [fst] in Hstep. subst b. rewrite balance_cons.
    assert (Hd : -1 <= delta o <= 1)
      by (unfold delta; destruct (is_acquire o), (is_release o); lia).
    destruct (Z.eqb_spec (ref_count mt + delta o) 0) as [Hz | Hnz].
    + subst mem1. destruct (exec_freed _ _ _ Hex) as [Hf Hb].
      rewrite Hb. replace (ref_count mt + (delta o + 0)) with 0 by lia.
      split; [lia |]. split; [| lia]. split; [reflexivity | congruence].
    + subst mem1.
      specialize (IH (set_ref_count mt (ref_count mt + delta o)) rs1 st).
      cbn [ref_count set_ref_count] in IH.
      destruct (IH ltac:(lia) ltac:(lia) Hex) as (H0 & Hfr & Hlive).
      replace (ref_count mt + (delta o + (acquires rest - releases rest)))
        with (ref_count mt + delta o + (acquires rest - releases rest))
        by lia.
      split; [exact H0 |]. split; [exact Hfr |]. exact Hlive.
Qed.


(** An operation on live storage is defined, unless it destroys a reader
    that does not exist. *)
Lemma exec_op_live_defined (o : op) (mt : faidx_meta_t)
    (rs : list faidx_reader_t) :
  (forall i : nat, o = OpReaderDestroy i -> is_Some (rs !! i)) ->
  is_Some (exec_op o (Live mt, rs)).
Proof.
  intros Hrd. destruct o as [| | reader_ok opened | i]; cbn [exec_op].
  - simpl. eauto.
  - simpl. destruct (_ <=? 0); eauto.
  - destruct reader_ok.
    + rewrite (reader_create_run _ tt tt tt mt opened eq_refl eq_refl).
      cbv zeta. destruct opened; cbn [fst]; [eauto |].
      simpl. destruct (_ <=? 0); eauto.
    + rewrite (reader_create_no_memory _ tt tt (Live mt) eq_refl).
      cbn [fst]. eauto.
  - destruct (Hrd i eq_refl) as [r Hr]. rewrite Hr. simpl.
    destruct (_ <=? 0); eauto.
Qed.



(** ** Loading *)

Lemma run_act_fst {W A R : Type} (H : handler W) (a : action R)
    (k : R -> io A) (w : W) (r : R) :
  fst (H R a w) = r -> exists w' : W, run H (Act a k) w = run H (k r) w'.
Proof.
  intros Ha. simpl. destruct (H R a w) as [r' w']. simpl in Ha. subst r'.
  exists w'. reflexivity.
Qed.

Lemma kstrdup_ok {W : Type} (H : handler W) (str : string) (w : W) :
  all_ok H -> exists w' : W, run H (kstrdup str) w = (Some str, w').
Proof.
  intros (Halloc & _). unfold kstrdup. cbn [run].
  match goal with
  | |- context [H bool (Alloc ?sz) w] =>
      pose proof (Halloc sz w) as Hs; destruct (H bool (Alloc sz) w) as [s w']
  end.
  cbn [fst] in Hs. subst s. exists w'. reflexivity.
Qed.

Lemma dup_names_ok {W : Type} (H : handler W) (names : list string) :
  all_ok H ->
  forall (acc : list string) (w : W),
    exists w' : W, run H (dup_names names acc) w = (Some (acc ++ names), w').
Proof.
  intros Hok. induction names as [| nm rest IH]; intros acc w.
  - exists w. simpl. rewrite app_nil_r. reflexivity.
  - cbn [dup_names]. rewrite run_bind.
    destruct (kstrdup_ok H nm w Hok) as [w1 ->].
    destruct (IH (acc ++ [nm]) w1) as [w2 Hrest].
    exists w2. rewrite Hrest, <- app_assoc. reflexivity.
Qed.

(** The table [kh_put_names] builds: a name of the list is mapped once,
    to the descriptor the loaded index has under it, however often the
    name occurs. *)
Lemma kh_put_names_from (fai : faidx_t) (names : list string) :
  forall (h : gmap string faidx1_t) (nm : string),
    fold_left
      (fun h nm =>
         match h !! nm with
         | Some _ => h
         | None => <[nm := kh_val_at (fai_hash fai) nm]> h
         end)
      names h !! nm
    = match h !! nm with
      | Some v => Some v
      | None => if decide (nm ∈ names)
                then Some (kh_val_at (fai_hash fai) nm) else None
      end.
Proof.
  induction names as [| x rest IH]; intros h nm; cbn [fold_left].
  - destruct (h !! nm); [reflexivity |].
    destruct (decide (nm ∈ [])) as [Hin | _]; [| reflexivity].
    inversion Hin.
  - rewrite IH. destruct (h !! x) as [vx |] eqn:Hx.
    + destruct (h !! nm) as [v |] eqn:Hnm; [reflexivity |].
      destruct (decide (nm ∈ rest)) as [Hin | Hnin],
               (decide (nm ∈ x :: rest)) as [Hin' | Hnin'];
        try reflexivity.
      * exfalso. apply Hnin'. right. exact Hin.
      * exfalso. apply elem_of_cons in Hin' as [-> | Hin']; [| tauto].
        congruence.
    + destruct (decide (x = nm)) as [-> | Hne].
      * rewrite lookup_insert_eq, Hx.
        destruct (decide (nm ∈ nm :: rest)) as [_ | Hnin]; [reflexivity |].
        exfalso. apply Hnin. left.
      * rewrite lookup_insert_ne by exact Hne.
        destruct (h !! nm) as [v |]; [reflexivity |].
        destruct (decide (nm ∈ rest)) as [Hin | Hnin],
                 (decide (nm ∈ x :: rest)) as [Hin' | Hnin'];
          try reflexivity.
        -- exfalso. apply Hnin'. right. exact Hin.
        -- exfalso. apply elem_of_cons in Hin' as [-> | Hin']; tauto.
Qed.

Lemma kh_put_names_lookup (fai : faidx_t) (names : list string)
    (nm : string) :
  kh_put_names fai names !! nm
  = if decide (nm ∈ names) then Some (kh_val_at (fai_hash fai) nm) else None.
Proof.
  unfold kh_put_names. rewrite kh_put_names_from, lookup_empty. reflexivity.
Qed.

(** One step of a run whose answer is known. *)
Ltac step_with Hfact :=
  match goal with
  | |- context [run ?H (Act ?a ?k) ?w] =>
      let w' := fresh "w" in
      let E := fresh "E" in
      destruct (run_act_fst H a k w _ Hfact) as [w' E];
      rewrite E; clear E; cbn [negb]
  end.

(** With every allocation succeeding and an index returned by
    [fai_load3_format], [faidx_meta_load] runs through to its
    [return meta]; only the block-offset table is open. *)
Lemma faidx_meta_load_run {W : Type} (H : handler W) (w : W)
    (filename : string) (fmt : fai_format_options) (flags : Z)
    (fai : faidx_t) (P : option faidx_meta_t * W -> Prop) :
  all_ok H ->
  (forall w' : W,
     fst (H _ (FaiLoad3Format filename (filename ++ ".fai")
                 (filename ++ ".gzi") flags fmt) w') = Some fai) ->
  (forall (table : option bgzidx_t) (w' : W),
     P (Some {| n := fai_n fai; m := fai_m fai;
                name := take (Z.to_nat (fai_n fai)) (fai_name fai);
                hash := kh_put_names fai
                          (take (Z.to_nat (fai_n fai)) (fai_name fai));
                format := fai_format fai;
                fasta_path := filename;
                fai_path := (filename ++ ".fai")%string;
                gzi_path := (filename ++ ".gzi")%string;
                bgzf_idx := table; ref_count := 1;
                is_bgzf := match fai_bgzf fai with
                           | Some b => is_compressed b
                           | None => false
                           end |}, w')) ->
  P (run H (faidx_meta_load (Some filename) fmt flags) w).
Proof.
  intros Hok Hfai HP. pose proof Hok as (Halloc & Hks & Hkh & Hmx).
  unfold faidx_meta_load.
  step_with (Hks (filename ++ ".fai")%string w).
  step_with (Hks (filename ++ ".gzi")%string w0).
  step_with (Hfai w1).
  step_with (Halloc sizeof_meta w2).
  step_with (Hmx w3). cbn [Z.eqb negb].
  step_with (Halloc (to_u64 (to_u64 (fai_m fai) * sizeof_ptr)) w4).
  rewrite run_bind.
  destruct (dup_names_ok H (take (Z.to_nat (fai_n fai)) (fai_name fai)) Hok
              [] w5) as [w6 ->].
  cbn [app].
  step_with (Hkh w6).
  rewrite run_bind. destruct (kstrdup_ok H filename w7 Hok) as [w8 ->].
  rewrite run_bind.
  destruct (kstrdup_ok H (filename ++ ".fai")%string w8 Hok) as [w9 ->].
  rewrite run_bind.
  destruct (kstrdup_ok H (filename ++ ".gzi")%string w9 Hok) as [w10 ->].
  rewrite run_bind.
  match goal with
  | |- context [run H ?p w10] => destruct (run H p w10) as [table w11]
  end.
  cbn [run]. apply HP.
Qed.

(** C6, as amended.  [faidx_meta_load] raises no error for a repeated
    name.  Whenever [fai_load3_format] returns an index for the file,
    with whatever names, and every allocation succeeds, the load returns
    a metadata object; its table maps each name of the index once, to the
    descriptor the index holds under that name, so that a second record
    of the same name is dropped without notice. *)
Theorem load_ignores_duplicates {W : Type} (H : handler W) (w : W)
    (filename : string) (fmt : fai_format_options) (flags : Z)
    (fai : faidx_t) :
  all_ok H ->
  (forall w' : W,
     fst (H _ (FaiLoad3Format filename (filename ++ ".fai")
                 (filename ++ ".gzi") flags fmt) w') = Some fai) ->
  exists meta : faidx_meta_t,
    fst (run H (faidx_meta_load (Some filename) fmt flags) w) = Some meta
    /\ n meta = fai_n fai
    /\ name meta = take (Z.to_nat (fai_n fai)) (fai_name fai)
    /\ forall nm : string,
         hash meta !! nm
         = if decide (nm ∈ name meta)
           then Some (kh_val_at (fai_hash fai) nm) else None.
Proof.
  intros Hok Hfai.
  apply (faidx_meta_load_run H w filename fmt flags fai); try assumption.
  intros table w'. eexists. split; [reflexivity |].
  cbn [n name hash]. split; [reflexivity |]. split; [reflexivity |].
  intros nm. apply kh_put_names_lookup.
Qed.

(** *** Sample indices *)

Lemma load_ignores_duplicates_witness :
  exists meta : faidx_meta_t,
    fst (run (fixed (fai_answer dup_fai_kept))
           (faidx_meta_load (Some "t.fa"%string) FAI_FASTA 0) tt) = Some meta
    /\ n meta = fai_n dup_fai_kept
    /\ name meta
       = take (Z.to_nat (fai_n dup_fai_kept)) (fai_name dup_fai_kept)
    /\ forall nm : string,
         hash meta !! nm
         = if decide (nm ∈ name meta)
           then Some (kh_val_at (fai_hash dup_fai_kept) nm) else None.
Proof.
  apply (load_ignores_duplicates (fixed (fai_answer dup_fai_kept)) tt
           "t.fa" FAI_FASTA 0 dup_fai_kept).
  - repeat split.
  - intros w'. reflexivity.
Defined.

(** C6 as stated fails: for a [.fai] with two records named [chr1] the
    load does not fail.  It returns a metadata object in which [chr1]
    has the first record's descriptor and the second record is gone,
    whether htslib hands on one name or both. *)
Lemma duplicate_name_loads :
  fst (run sim (faidx_meta_load (Some "t.fa"%string) FAI_FASTA 0)
         (dup_world dup_fai_dropped))
  = Some {| n := 1; m := 16; name := ["chr1"%string];
            hash := {["chr1"%string := chr1]}; format := FAI_FASTA;
            fasta_path := "t.fa"; fai_path := "t.fa.fai";
            gzi_path := "t.fa.gzi"; bgzf_idx := None; ref_count := 1;
            is_bgzf := false |}
  /\ fst (run sim (faidx_meta_load (Some "t.fa"%string) FAI_FASTA 0)
            (dup_world dup_fai_kept))
     = Some {| n := 2; m := 16; name := ["chr1"%string; "chr1"%string];
               hash := {["chr1"%string := chr1]}; format := FAI_FASTA;
               fasta_path := "t.fa"; fai_path := "t.fa.fai";
               gzi_path := "t.fa.gzi"; bgzf_idx := None; ref_count := 1;
               is_bgzf := false |}.
Proof. split; vm_compute; reflexivity. Qed.

(** ** The block-offset sidecar *)

Example hread_uint64_le :
  hread_uint64 (le_bytes 8 65280 ++ [A_]) = Some (65280, [A_]).
Proof. reflexivity. Qed.

(** With the sidecar whole and memory at hand the table is loaded, the
    entry [(0, 0)] in front. *)
Example gzi_loads :
  fst (run sim (bgzf_index_load_direct "t.fa.gz.gzi") (gz_world gzi_whole []))
  = Some {| noffs := 3; moffs := 3;
            offs := [mk_bgzidx1 0 0; mk_bgzidx1 100 65280;
                     mk_bgzidx1 200 130560] |}.
Proof. vm_compute. reflexivity. Qed.

(** C7, the code at the failing inputs.  When the [.gzi] exists and
    [bgzf_index_load_direct] fails on it, by a read that falls short
    ([gzi_cut]) or by the offset array not being allocated (the eleventh
    allocation of the load), that function returns NULL, and
    [faidx_meta_load] stores the NULL unchecked and returns a metadata
    object with [is_bgzf] set and no block-offset table. *)
Lemma gzi_failure_not_atomic :
  (fst (run sim (bgzf_index_load_direct "t.fa.gz.gzi") (gz_world gzi_cut []))
   = None
   /\ exists meta : faidx_meta_t,
        fst (run sim (faidx_meta_load (Some "t.fa.gz"%string) FAI_FASTA 0)
               (gz_world gzi_cut [])) = Some meta
        /\ is_bgzf meta = true /\ bgzf_idx meta = None)
  /\ (exists meta : faidx_meta_t,
        fst (run sim (faidx_meta_load (Some "t.fa.gz"%string) FAI_FASTA 0)
               (gz_world gzi_whole (repeat true 10 ++ [false]))) = Some meta
        /\ is_bgzf meta = true /\ bgzf_idx meta = None).
Proof.
  split; [split |].
  - vm_compute. reflexivity.
  - eexists. split; [vm_compute; reflexivity |]. split; reflexivity.
  - eexists. split; [vm_compute; reflexivity |]. split; reflexivity.
Qed.

(** With the same sidecar whole and memory at hand the load returns the
    table. *)
Example gz_load_whole :
  exists meta : faidx_meta_t,
    fst (run sim (faidx_meta_load (Some "t.fa.gz"%string) FAI_FASTA 0)
           (gz_world gzi_whole [])) = Some meta
    /\ is_bgzf meta = true
    /\ option_map noffs (bgzf_idx meta) = Some 3.
Proof. eexists. split; [vm_compute; reflexivity |]. split; reflexivity. Qed.

(** ** The line loop ends by its own test *)

(** Fuel at or above [remaining] never cuts the loop of [fai_retrieve]
    short: the run is the same for any such fuel. *)
Lemma read_lines_fuel {W : Type} (H : handler W) (d : nat) (val : faidx1_t) :
  1 <= line_blen val ->
  forall (fuel1 fuel2 : nat) (acc : list byte) (remaining : Z) (w : W),
    (Z.to_nat remaining <= fuel1)%nat ->
    (Z.to_nat remaining <= fuel2)%nat ->
    run H (read_lines fuel1 d val acc remaining) w
    = run H (read_lines fuel2 d val acc remaining) w.
Proof.
  intros Hbl. induction fuel1 as [| f1 IH]; intros fuel2 acc remaining w H1 H2.
  - destruct fuel2 as [| f2]; [reflexivity |].
    cbn [read_lines]. destruct (Z.ltb_spec (line_blen val) remaining);
      [lia | reflexivity].
  - destruct fuel2 as [| f2].
    + cbn [read_lines]. destruct (Z.ltb_spec (line_blen val) remaining);
        [lia | reflexivity].
    + cbn [read_lines]. destruct (Z.ltb_spec (line_blen val) remaining);
        [| reflexivity].
      cbn [run]. destruct (H _ _ w) as [r w'].
      destruct (nread_of r <? line_len val); [reflexivity |].
      apply IH; lia.
Qed.

(** * Further properties *)

(** ** The layout of wrapped lines *)

Section Layout.

Variable val : faidx1_t.
Variable offset : Z.
Hypothesis Hblen : 1 <= line_blen val.
Hypothesis Hllen : line_blen val <= line_len val.
Hypothesis Hoff : 0 <= offset.

Lemma phys_same_line (k i : Z) :
  0 <= k -> 0 <= i -> k mod line_blen val + i < line_blen val ->
  payload_offset val offset (k + i) = payload_offset val offset k + i.
Proof.
  intros Hk Hi Hfit. unfold payload_offset.
  assert (Hr : 0 <= k mod line_blen val < line_blen val)
    by (apply Z.mod_pos_bound; lia).
  pose proof (Z.div_mod k (line_blen val) ltac:(lia)) as Hdm.
  assert (Hq : (k + i) / line_blen val = k / line_blen val).
  { symmetry. apply (Z.div_unique _ _ _ (k mod line_blen val + i)); lia. }
  assert (Hm : (k + i) mod line_blen val = k mod line_blen val + i).
  { symmetry. apply (Z.mod_unique _ _ (k / line_blen val)); lia. }
  rewrite Hq, Hm. lia.
Qed.

Lemma phys_next_line (k : Z) :
  0 <= k ->
  payload_offset val offset (k + (line_blen val - k mod line_blen val))
  = payload_offset val offset k + (line_len val - k mod line_blen val).
Proof.
  intros Hk. unfold payload_offset.
  assert (Hr : 0 <= k mod line_blen val < line_blen val)
    by (apply Z.mod_pos_bound; lia).
  pose proof (Z.div_mod k (line_blen val) ltac:(lia)) as Hdm.
  set (k1 := k + (line_blen val - k mod line_blen val)).
  assert (Hq : k1 / line_blen val = k / line_blen val + 1).
  { symmetry. apply (Z.div_unique _ _ _ 0); subst k1; lia. }
  assert (Hm : k1 mod line_blen val = 0).
  { symmetry. apply (Z.mod_unique _ _ (k / line_blen val + 1)); subst k1; lia. }
  rewrite Hq, Hm. lia.
Qed.

Lemma phys_ge (k : Z) : 0 <= k -> k <= payload_offset val offset k.
Proof.
  intros Hk. unfold payload_offset.
  pose proof (Z.div_mod k (line_blen val) ltac:(lia)) as Hdm.
  assert (Hq : 0 <= k / line_blen val) by (apply Z.div_pos; lia).
  nia.
Qed.

Lemma phys_mono (k k' : Z) :
  0 <= k <= k' ->
  payload_offset val offset k <= payload_offset val offset k'.
Proof.
  intros Hk. unfold payload_offset.
  pose proof (Z.div_mod k (line_blen val) ltac:(lia)) as Hdm.
  pose proof (Z.div_mod k' (line_blen val) ltac:(lia)) as Hdm'.
  assert (Hr : 0 <= k mod line_blen val < line_blen val)
    by (apply Z.mod_pos_bound; lia).
  assert (Hr' : 0 <= k' mod line_blen val < line_blen val)
    by (apply Z.mod_pos_bound; lia).
  assert (Hq : 0 <= k / line_blen val) by (apply Z.div_pos; lia).
  assert (Hqq : k / line_blen val <= k' / line_blen val)
    by (apply Z.div_le_mono; lia).
  destruct (Z.eq_dec (k / line_blen val) (k' / line_blen val)) as [He | Hne].
  - rewrite He in *. nia.
  - assert (k / line_blen val + 1 <= k' / line_blen val) by lia. nia.
Qed.

Variables payload content : list byte.
Hypothesis Hlay : laid_out val offset payload content.

Lemma laid_out_inside (k : Z) :
  0 <= k < Z.of_nat (length payload) ->
  (Z.to_nat (payload_offset val offset k) < length content)%nat.
Proof.
  intros Hk. specialize (Hlay (Z.to_nat k) ltac:(lia)).
  rewrite Z2Nat.id in Hlay by lia.
  destruct (lookup_lt_is_Some_2 payload (Z.to_nat k) ltac:(lia)) as [x Hx].
  rewrite Hx in Hlay. apply lookup_lt_Some in Hlay. exact Hlay.
Qed.

(** A stretch of one line reads as the payload. *)
Lemma line_chunk (k c : Z) :
  0 <= k -> 0 <= c -> k + c <= Z.of_nat (length payload) ->
  k mod line_blen val + c <= line_blen val ->
  take (Z.to_nat c) (drop (Z.to_nat (payload_offset val offset k)) content)
  = slice payload k (k + c).
Proof.
  intros Hk Hc Hin Hfit. unfold slice.
  replace (k + c - k) with c by lia.
  apply list_eq. intros i.
  destruct (decide (i < Z.to_nat c)%nat) as [Hi | Hi].
  - rewrite !lookup_take_lt, !lookup_drop by exact Hi.
    specialize (Hlay (Z.to_nat k + i)%nat ltac:(lia)).
    rewrite <- Hlay. f_equal.
    replace (Z.of_nat (Z.to_nat k + i)) with (k + Z.of_nat i) by lia.
    rewrite phys_same_line by lia.
    pose proof (phys_ge k Hk). lia.
  - rewrite !lookup_take_ge by lia. reflexivity.
Qed.

End Layout.

Lemma slice_app (p : list byte) (a b c : Z) :
  0 <= a <= b -> b <= c -> slice p a b ++ slice p b c = slice p a c.
Proof.
  intros Hab Hbc. unfold slice.
  replace (Z.to_nat b) with (Z.to_nat a + Z.to_nat (b - a))%nat by lia.
  rewrite <- drop_drop, take_take_drop. f_equal. lia.
Qed.

Lemma slice_length (p : list byte) (a b : Z) :
  0 <= a <= b -> b <= Z.of_nat (length p) ->
  Z.of_nat (length (slice p a b)) = b - a.
Proof.
  intros Hab Hb. unfold slice. rewrite length_take, length_drop. lia.
Qed.

Lemma slice_empty (p : list byte) (a : Z) : slice p a a = [].
Proof. unfold slice. rewrite Z.sub_diag. reflexivity. Qed.

(** ** The in-memory decoder *)

Lemma reading_seek (w : world) (d : nat) (content : list byte)
    (pos uoffset : Z) :
  reading w d content pos -> 0 <= uoffset ->
  exists w' : world,
    sim Z (BgzfUseek d uoffset) w = (0, w')
    /\ reading w' d content uoffset.
Proof.
  intros [Hal Hd] Hoff. cbn [sim]. unfold sim_useek. rewrite Hd.
  destruct (Z.ltb_spec uoffset 0); [lia |].
  eexists. split; [reflexivity |]. split; [exact Hal |].
  cbn [w_decoders set_decoders].
  apply list_lookup_insert_eq. eapply lookup_lt_Some; eauto.
Qed.

Lemma reading_alloc (w : world) (d : nat) (content : list byte) (pos : Z)
    (nbytes : Z) :
  reading w d content pos -> sim bool (Alloc nbytes) w = (true, w).
Proof. intros [Hal _]. cbn [sim]. unfold pop_alloc. rewrite Hal. reflexivity. Qed.

Lemma reading_read (w : world) (d : nat) (content : list byte)
    (pos length_ : Z) :
  reading w d content pos ->
  exists w' : world,
    sim _ (BgzfRead d length_) w
    = (Some (take (Z.to_nat length_) (drop (Z.to_nat pos) content)), w')
    /\ reading w' d content
         (pos + Z.of_nat (length (take (Z.to_nat length_)
                                    (drop (Z.to_nat pos) content)))).
Proof.
  intros [Hal Hd]. cbn [sim]. unfold sim_read. rewrite Hd.
  eexists. split; [reflexivity |]. split; [exact Hal |].
  cbn [w_decoders set_decoders].
  apply list_lookup_insert_eq. eapply lookup_lt_Some; eauto.
Qed.

(** ** What a fetch returns *)

Section Retrieve.

Variable val : faidx1_t.
Variable offset : Z.
Variables payload content : list byte.
Variable bz : BGZF.
Hypothesis Hblen : 1 <= line_blen val.
Hypothesis Hllen : line_blen val <= line_len val.
Hypothesis Hll32 : line_len val < two32.
Hypothesis Hoff : 0 <= offset.
Hypothesis Hlay : laid_out val offset payload content.

Lemma read_exact (w : world) (k c : Z) :
  reading w (fd bz) content (payload_offset val offset k) ->
  0 <= k -> 0 <= c ->
  (Z.to_nat (payload_offset val offset k + c) <= length content)%nat ->
  exists w' : world,
    sim _ (BgzfRead (fd bz) c) w
    = (Some (take (Z.to_nat c)
               (drop (Z.to_nat (payload_offset val offset k)) content)), w')
    /\ reading w' (fd bz) content (payload_offset val offset k + c)
    /\ Z.of_nat (length (take (Z.to_nat c)
                           (drop (Z.to_nat (payload_offset val offset k))
                              content))) = c.
Proof.
  intros Hrd Hk Hc Hin.
  pose proof (phys_ge val offset Hblen Hllen Hoff k Hk) as Hge.
  destruct (reading_read w (fd bz) content _ c Hrd) as (w1 & Hread & Hrd1).
  assert (Hlen : Z.of_nat (length (take (Z.to_nat c)
                   (drop (Z.to_nat (payload_offset val offset k)) content)))
                 = c)
    by (rewrite length_take, length_drop; lia).
  rewrite Hlen in Hrd1. exists w1. auto.
Qed.

(** The loop of [fai_retrieve], entered at the start [k] of a line with
    the range end [e] still ahead: it stops at the start [k'] of the line
    holding the last byte, having added the lines in between. *)
Lemma read_lines_sim (e : Z) :
  e <= Z.of_nat (length payload) ->
  forall (fuel : nat) (k : Z) (acc : list byte) (w : world),
    reading w (fd bz) content (payload_offset val offset k) ->
    0 <= k -> k mod line_blen val = 0 -> 0 < e - k ->
    (Z.to_nat (e - k) <= fuel)%nat ->
    exists (k' : Z) (w' : world),
      run sim (read_lines fuel (fd bz) val acc (e - k)) w
      = (Some (acc ++ slice payload k k', e - k'), w')
      /\ reading w' (fd bz) content (payload_offset val offset k')
      /\ k <= k' /\ k' mod line_blen val = 0
      /\ 0 < e - k' <= line_blen val.
Proof.
  intros He. induction fuel as [| fuel IH]; intros k acc w Hrd Hk Hmod Hrem Hfuel.
  - lia.
  - cbn [read_lines]. destruct (Z.ltb_spec (line_blen val) (e - k)) as [Hgt | Hle].
    + pose proof (phys_ge val offset Hblen Hllen Hoff k Hk) as Hge.
      pose proof (phys_next_line val offset Hblen k Hk) as Hnext.
      rewrite Hmod, !Z.sub_0_r in Hnext.
      pose proof (laid_out_inside val offset payload content Hlay
                    (k + line_blen val) ltac:(lia)) as Hin.
      rewrite Hnext in Hin.
      assert (Hu : to_u64 (line_len val) = line_len val)
        by (apply to_u64_small; unfold_cint; lia).
      rewrite Hu.
      destruct (read_exact w k (line_len val) Hrd Hk ltac:(lia) ltac:(lia))
        as (w1 & Hread & Hrd1 & Hlen).
      rewrite (run_act _ _ _ _ _ _ Hread). cbn [nread_of data_of].
      rewrite Hlen. destruct (Z.ltb_spec (line_len val) (line_len val)); [lia |].
      rewrite take_take, Nat.min_l by lia.
      rewrite (line_chunk val offset Hblen Hllen Hoff payload content Hlay
                 k (line_blen val)) by lia.
      rewrite <- Hnext in Hrd1.
      replace (e - k - line_blen val) with (e - (k + line_blen val)) by lia.
      assert (Hmod' : (k + line_blen val) mod line_blen val = 0).
      { replace (k + line_blen val) with (k + 1 * line_blen val) by lia.
        rewrite Z_mod_plus_full. exact Hmod. }
      destruct (IH (k + line_blen val) (acc ++ slice payload k (k + line_blen val))
                  w1 Hrd1 ltac:(lia) Hmod' ltac:(lia) ltac:(lia))
        as (k' & w' & Hrun & Hrd' & Hkk & Hmk & Hlast).
      exists k', w'. rewrite Hrun, <- app_assoc, slice_app by lia.
      split; [reflexivity |]. split; [exact Hrd' |]. repeat split; lia.
    + exists k, w. rewrite slice_empty, app_nil_r.
      split; [reflexivity |]. split; [exact Hrd |]. repeat split; lia.
Qed.


(** A range inside the payload, read from an open in-memory decoder. *)
Lemma fai_retrieve_sim (w : world) (pos0 beg end_ : Z) :
  payload_offset val offset (Z.of_nat (length payload)) <= INT64_MAX ->
  0 <= beg <= end_ -> end_ <= Z.of_nat (length payload) ->
  reading w (fd bz) content pos0 ->
  exists (w' : world) (pos' : Z),
    run sim (fai_retrieve bz val offset beg end_) w
    = ((Some (slice payload beg end_), end_ - beg), w')
    /\ reading w' (fd bz) content pos'.
Proof.
  intros Hmax Hbe Hend Hrd.
  pose proof (phys_mono val offset Hblen Hllen beg (Z.of_nat (length payload))
                ltac:(lia)) as Hmono.
  pose proof (phys_ge val offset Hblen Hllen Hoff beg ltac:(lia)) as Hge.
  pose proof (phys_ge val offset Hblen Hllen Hoff (Z.of_nat (length payload))
                ltac:(lia)) as Hge'.
  assert (Hr : 0 <= beg mod line_blen val < line_blen val)
    by (apply Z.mod_pos_bound; lia).
  unfold fai_retrieve.
  rewrite u64_sub_to_u64, (to_u64_small (end_ - beg)) by (unfold_cint; lia).
  destruct (Z.leb_spec (SIZE_MAX - 2) (end_ - beg)); [unfold_cint; lia |].
  destruct (Z.leb_spec (line_blen val) 0); [lia |].
  rewrite seek_target_exact by lia.
  destruct (reading_seek w (fd bz) content pos0 (payload_offset val offset beg)
              Hrd ltac:(lia)) as (w1 & Hseek & Hrd1).
  rewrite (run_act _ _ _ _ _ _ Hseek). cbn [Z.ltb Z.compare].
  rewrite (run_act _ _ _ _ _ _ (reading_alloc w1 (fd bz) content _ _ Hrd1)).
  cbn [negb]. unfold i64_sub.
  rewrite (to_i64_small (end_ - beg)) by (unfold_cint; lia).
  rewrite Z.rem_mod_nonneg by lia.
  destruct (Z.leb_spec (end_ - beg) (line_blen val - beg mod line_blen val))
    as [Hshort | Hlong].
  - (* within one line *)
    rewrite (to_u64_small (end_ - beg)) by (unfold_cint; lia).
    destruct (reading_read w1 (fd bz) content _ (end_ - beg) Hrd1)
      as (w2 & Hread & Hrd2).
    rewrite (run_act _ _ _ _ _ _ Hread). cbn [nread_of data_of].
    rewrite (line_chunk val offset Hblen Hllen Hoff payload content Hlay
               beg (end_ - beg)) by lia.
    replace (beg + (end_ - beg)) with end_ by lia.
    rewrite slice_length by lia.
    destruct (Z.ltb_spec (end_ - beg) (end_ - beg)); [lia |].
    eauto.
  - (* more than one line *)
    set (k1 := beg + (line_blen val - beg mod line_blen val)) in *.
    assert (Hk1 : k1 < end_) by (subst k1; lia).
    pose proof (phys_next_line val offset Hblen beg ltac:(lia)) as Hnext.
    fold k1 in Hnext.
    pose proof (laid_out_inside val offset payload content Hlay k1
                  ltac:(subst k1; lia)) as Hin1.
    assert (Hmod1 : k1 mod line_blen val = 0).
    { pose proof (Z.div_mod beg (line_blen val) ltac:(lia)) as Hdm.
      symmetry. apply (Z.mod_unique _ _ (beg / line_blen val + 1));
        subst k1; lia. }
    rewrite (to_u64_small (line_len val - _)) by (unfold_cint; lia).
    destruct (read_exact w1 beg (line_len val - beg mod line_blen val)
                Hrd1 ltac:(lia) ltac:(lia) ltac:(lia))
      as (w2 & Hread & Hrd2 & Hlen).
    rewrite (run_act _ _ _ _ _ _ Hread). cbn [nread_of data_of].
    rewrite Hlen.
    destruct (Z.ltb_spec (line_len val - beg mod line_blen val)
                (line_len val - beg mod line_blen val)); [lia |].
    rewrite take_take, Nat.min_l by lia.
    rewrite (line_chunk val offset Hblen Hllen Hoff payload content Hlay
               beg (line_blen val - beg mod line_blen val)) by (subst k1; lia).
    fold k1. rewrite <- Hnext in Hrd2.
    replace (end_ - beg - (line_blen val - beg mod line_blen val))
      with (end_ - k1) by (subst k1; lia).
    rewrite run_bind.
    destruct (read_lines_sim end_ Hend (Z.to_nat (end_ - k1)) k1
                (slice payload beg k1) w2 Hrd2 ltac:(subst k1; lia) Hmod1
                ltac:(lia) ltac:(lia))
      as (k' & w3 & Hrun & Hrd3 & Hkk & Hmk & Hlast).
    rewrite Hrun. rewrite slice_app by (subst k1; lia).
    destruct (Z.ltb_spec 0 (end_ - k')); [| lia].
    rewrite (to_u64_small (end_ - k')) by (unfold_cint; lia).
    assert (Hfin : (Z.to_nat (payload_offset val offset k' + (end_ - k'))
                    <= length content)%nat).
    { pose proof (laid_out_inside val offset payload content Hlay (end_ - 1)
                    ltac:(subst k1; lia)) as Hin.
      replace (end_ - 1) with (k' + (end_ - k' - 1)) in Hin by lia.
      rewrite (phys_same_line val offset Hblen) in Hin by (subst k1; lia).
      pose proof (phys_ge val offset Hblen Hllen Hoff k' ltac:(subst k1; lia)).
      lia. }
    destruct (read_exact w3 k' (end_ - k') Hrd3 ltac:(subst k1; lia)
                ltac:(lia) Hfin)
      as (w4 & Hread4 & Hrd4 & Hlen4).
    rewrite (run_act _ _ _ _ _ _ Hread4). cbn [nread_of data_of].
    rewrite Hlen4. destruct (Z.ltb_spec (end_ - k') (end_ - k')); [lia |].
    rewrite take_take, Nat.min_l by lia.
    rewrite (line_chunk val offset Hblen Hllen Hoff payload content Hlay
               k' (end_ - k')) by (subst k1; lia).
    replace (k' + (end_ - k')) with end_ by lia.
    rewrite slice_app by (subst k1; lia).
    eauto.
Qed.

End Retrieve.

Lemma byte_eqb_eq (a b : byte) : byte_eqb a b = true -> a = b.
Proof.
  unfold byte_eqb. intros H. apply N.eqb_eq in H.
  pose proof (Byte.of_to_N a) as Ha. pose proof (Byte.of_to_N b) as Hb.
  rewrite H in Ha. congruence.
Qed.

Lemma laid_out_b_sound (val : faidx1_t) (offset : Z)
    (payload content : list byte) :
  laid_out_b val offset payload content = true ->
  laid_out val offset payload content.
Proof.
  unfold laid_out_b, laid_out. intros Hb k Hk.
  rewrite forallb_forall in Hb.
  specialize (Hb k ltac:(apply in_seq; lia)).
  destruct (content !! _) as [x |]; [| discriminate].
  destruct (payload !! k) as [y |]; [| discriminate].
  apply byte_eqb_eq in Hb. congruence.
Qed.

(** [faidx_reader_fetch_seq] on a range that starts inside the sequence
    (or at its end), read from an open in-memory decoder. *)
Lemma fetch_seq_sim (reader : faidx_reader_t) (c_name : string)
    (val : faidx1_t) (payload content : list byte) (w : world)
    (pos0 p_beg_i p_end_i : Z) :
  hash (meta_of reader) !! c_name = Some val ->
  1 <= line_blen val -> line_blen val <= line_len val ->
  line_len val < two32 -> 0 <= seq_offset val ->
  len val = Z.of_nat (length payload) ->
  laid_out val (seq_offset val) payload content ->
  payload_offset val (seq_offset val) (len val) <= INT64_MAX ->
  0 <= p_beg_i <= p_end_i -> in_i64 p_end_i -> p_beg_i <= len val ->
  reading w (fd (bgzf reader)) content pos0 ->
  exists (w' : world) (pos' : Z),
    run sim (faidx_reader_fetch_seq reader c_name p_beg_i p_end_i) w
    = ((Some (slice payload p_beg_i (Z.min (p_end_i + 1) (len val))),
        Z.min (p_end_i + 1) (len val) - p_beg_i), w')
    /\ reading w' (fd (bgzf reader)) content pos'.
Proof.
  intros Hlk Hbl Hll H32 Hoff Hlen Hlay Hmax Hbe Hpe Hin Hrd.
  pose proof (phys_ge val (seq_offset val) Hbl Hll Hoff (len val)
                ltac:(lia)) as Hge.
  assert (Hprog : faidx_reader_fetch_seq reader c_name p_beg_i p_end_i
                  = fai_retrieve (bgzf reader) val (seq_offset val) p_beg_i
                      (Z.min (p_end_i + 1) (len val))).
  { unfold faidx_reader_fetch_seq, faidx_adjust_position. rewrite Hlk.
    case_cmp; try (exfalso; cint_lia); f_equal; cint_lia. }
  rewrite Hprog. rewrite Hlen in *.
  apply (fai_retrieve_sim val (seq_offset val) payload content (bgzf reader)
           Hbl Hll H32 Hoff Hlay w pos0); try assumption; lia.
Qed.

(** X1.  Let the payload of a sequence lie in the file as its descriptor
    says ([1 <= line_blen <= line_len]).  A [faidx_reader_fetch_seq] with
    [0 <= begin <= end] and [begin <= L], run on a decoder open on the
    file, returns the payload bytes from [begin] up to [min (end, L - 1)],
    line terminators left out, and reports their number. *)
Theorem fetch_seq_returns_payload (reader : faidx_reader_t) (c_name : string)
    (val : faidx1_t) (payload content : list byte) (w : world)
    (pos0 p_beg_i p_end_i : Z) :
  hash (meta_of reader) !! c_name = Some val ->
  1 <= line_blen val -> line_blen val <= line_len val ->
  line_len val < two32 -> 0 <= seq_offset val ->
  len val = Z.of_nat (length payload) ->
  laid_out val (seq_offset val) payload content ->
  payload_offset val (seq_offset val) (len val) <= INT64_MAX ->
  0 <= p_beg_i <= p_end_i -> in_i64 p_end_i -> p_beg_i <= len val ->
  reading w (fd (bgzf reader)) content pos0 ->
  fst (run sim (faidx_reader_fetch_seq reader c_name p_beg_i p_end_i) w)
  = (Some (slice payload p_beg_i (Z.min (p_end_i + 1) (len val))),
     Z.min (p_end_i + 1) (len val) - p_beg_i).
Proof.
  intros Hlk Hbl Hll H32 Hoff Hlen Hlay Hmax Hbe Hpe Hin Hrd.
  destruct (fetch_seq_sim reader c_name val payload content w pos0
              p_beg_i p_end_i) as (w' & pos' & Hrun & _); try assumption.
  rewrite Hrun. reflexivity.
Qed.

Lemma chr1_laid_out : laid_out chr1 (seq_offset chr1) chr1_payload t_fa.
Proof. apply laid_out_b_sound. vm_compute. reflexivity. Qed.

Lemma fetch_seq_returns_payload_witness :
  fst (run sim (faidx_reader_fetch_seq t_reader "chr1" 59 60) t_world)
  = (Some (slice chr1_payload 59 (Z.min (60 + 1) (len chr1))),
     Z.min (60 + 1) (len chr1) - 59).
Proof.
  apply (fetch_seq_returns_payload t_reader "chr1" chr1 chr1_payload t_fa
           t_world 0 59 60).
  - reflexivity.
  - simpl; lia.
  - simpl; lia.
  - simpl; unfold_cint; lia.
  - simpl; lia.
  - reflexivity.
  - exact chr1_laid_out.
  - vm_compute; discriminate.
  - lia.
  - unfold_cint; lia.
  - simpl; lia.
  - split; reflexivity.
Defined.

(** X3.  Two fetches of adjacent ranges, one after the other on the same
    reader, return buffers whose concatenation is what one fetch of the
    joined range returns, and their lengths add up. *)
Theorem fetch_seq_adjacent (reader : faidx_reader_t) (c_name : string)
    (val : faidx1_t) (payload content : list byte) (w : world)
    (pos0 p_beg_i p_mid_i p_end_i : Z) :
  hash (meta_of reader) !! c_name = Some val ->
  1 <= line_blen val -> line_blen val <= line_len val ->
  line_len val < two32 -> 0 <= seq_offset val ->
  len val = Z.of_nat (length payload) ->
  laid_out val (seq_offset val) payload content ->
  payload_offset val (seq_offset val) (len val) <= INT64_MAX ->
  0 <= p_beg_i <= p_mid_i -> p_mid_i < p_end_i -> in_i64 p_end_i ->
  p_mid_i < len val ->
  reading w (fd (bgzf reader)) content pos0 ->
  exists (d1 d2 : list byte) (l1 l2 : Z) (w1 w2 : world),
    run sim (faidx_reader_fetch_seq reader c_name p_beg_i p_mid_i) w
    = ((Some d1, l1), w1)
    /\ run sim (faidx_reader_fetch_seq reader c_name (p_mid_i + 1) p_end_i) w1
       = ((Some d2, l2), w2)
    /\ fst (run sim (faidx_reader_fetch_seq reader c_name p_beg_i p_end_i) w)
       = (Some (d1 ++ d2), l1 + l2).
Proof.
  intros Hlk Hbl Hll H32 Hoff Hlen Hlay Hmax Hbm Hme Hpe Hin Hrd.
  destruct (fetch_seq_sim reader c_name val payload content w pos0
              p_beg_i p_mid_i) as (w1 & pos1 & Hrun1 & Hrd1);
    try assumption; try (unfold_cint; lia).
  destruct (fetch_seq_sim reader c_name val payload content w1 pos1
              (p_mid_i + 1) p_end_i) as (w2 & pos2 & Hrun2 & _);
    try assumption; try lia.
  destruct (fetch_seq_sim reader c_name val payload content w pos0
              p_beg_i p_end_i) as (w3 & pos3 & Hrun3 & _);
    try assumption; try lia.
  do 6 eexists. split; [exact Hrun1 |]. split; [exact Hrun2 |].
  rewrite Hrun3. cbn [fst].
  rewrite (Z.min_l (p_mid_i + 1) (len val)) by lia.
  rewrite slice_app by lia. f_equal. lia.
Qed.

Lemma fetch_seq_adjacent_witness :
  exists (d1 d2 : list byte) (l1 l2 : Z) (w1 w2 : world),
    run sim (faidx_reader_fetch_seq t_reader "chr1" 10 59) t_world
    = ((Some d1, l1), w1)
    /\ run sim (faidx_reader_fetch_seq t_reader "chr1" (59 + 1) 130) w1
       = ((Some d2, l2), w2)
    /\ fst (run sim (faidx_reader_fetch_seq t_reader "chr1" 10 130) t_world)
       = (Some (d1 ++ d2), l1 + l2).
Proof.
  apply (fetch_seq_adjacent t_reader "chr1" chr1 chr1_payload t_fa
           t_world 0 10 59 130).
  - reflexivity.
  - simpl; lia.
  - simpl; lia.
  - simpl; unfold_cint; lia.
  - simpl; lia.
  - reflexivity.
  - exact chr1_laid_out.
  - vm_compute; discriminate.
  - lia.
  - lia.
  - unfold_cint; lia.
  - simpl; lia.
  - split; reflexivity.
Defined.

(** X2.  On a FASTQ index whose quality bytes lie in the file as the
    descriptor says from [qual_offset], [faidx_reader_fetch_qual] with
    [0 <= begin <= end] and [begin <= L] returns the quality bytes from
    [begin] up to [min (end, L - 1)] and reports their number. *)
Theorem fetch_qual_returns_quality (reader : faidx_reader_t)
    (c_name : string) (val : faidx1_t) (quals content : list byte)
    (w : world) (pos0 p_beg_i p_end_i : Z) :
  format (meta_of reader) = FAI_FASTQ ->
  hash (meta_of reader) !! c_name = Some val ->
  1 <= line_blen val -> line_blen val <= line_len val ->
  line_len val < two32 -> 0 <= qual_offset val ->
  len val = Z.of_nat (length quals) ->
  laid_out val (qual_offset val) quals content ->
  payload_offset val (qual_offset val) (len val) <= INT64_MAX ->
  0 <= p_beg_i <= p_end_i -> in_i64 p_end_i -> p_beg_i <= len val ->
  reading w (fd (bgzf reader)) content pos0 ->
  fst (run sim (faidx_reader_fetch_qual reader c_name p_beg_i p_end_i) w)
  = (Some (slice quals p_beg_i (Z.min (p_end_i + 1) (len val))),
     Z.min (p_end_i + 1) (len val) - p_beg_i).
Proof.
  intros Hfmt Hlk Hbl Hll H32 Hoff Hlen Hlay Hmax Hbe Hpe Hin Hrd.
  pose proof (phys_ge val (qual_offset val) Hbl Hll Hoff (len val)
                ltac:(lia)) as Hge.
  assert (Hprog : faidx_reader_fetch_qual reader c_name p_beg_i p_end_i
                  = fai_retrieve (bgzf reader) val (qual_offset val) p_beg_i
                      (Z.min (p_end_i + 1) (len val))).
  { unfold faidx_reader_fetch_qual, faidx_adjust_position.
    rewrite Hfmt, Hlk. cbn [fai_format_eqb negb].
    case_cmp; try (exfalso; cint_lia); f_equal; cint_lia. }
  rewrite Hprog. rewrite Hlen in *.
  destruct (fai_retrieve_sim val (qual_offset val) quals content (bgzf reader)
              Hbl Hll H32 Hoff Hlay w pos0 p_beg_i
              (Z.min (p_end_i + 1) (Z.of_nat (length quals))))
    as (w' & pos' & Hrun & _); try assumption; try lia.
  rewrite Hrun. reflexivity.
Qed.

Lemma fetch_qual_returns_quality_witness :
  fst (run sim (faidx_reader_fetch_qual q_reader "r1" 0 9) q_world)
  = (Some (slice r1_quals 0 (Z.min (9 + 1) (len r1))),
     Z.min (9 + 1) (len r1) - 0).
Proof.
  apply (fetch_qual_returns_quality q_reader "r1" r1 r1_quals q_fq
           q_world 0 0 9).
  - reflexivity.
  - reflexivity.
  - simpl; lia.
  - simpl; lia.
  - simpl; unfold_cint; lia.
  - simpl; lia.
  - reflexivity.
  - apply laid_out_b_sound. vm_compute. reflexivity.
  - vm_compute; discriminate.
  - lia.
  - unfold_cint; lia.
  - simpl; lia.
  - split; reflexivity.
Defined.

(** ** Clamping *)

(** The bounds [faidx_adjust_position] keeps. *)
Lemma adjust_begin_end (meta : faidx_meta_t) (c_name : string)
    (p_beg_i p_end_i : Z) (val : faidx1_t) (b e : Z) :
  faidx_adjust_position meta 1 c_name p_beg_i p_end_i = Some (val, b, e) ->
  in_i64 p_beg_i -> in_i64 p_end_i ->
  0 <= len val <= INT64_MAX ->
  0 <= b <= len val
  /\ b <= e + 1 <= Z.max (len val) 1
  /\ (0 <= p_end_i -> e + 1 <= len val).
Proof.
  unfold faidx_adjust_position. intros Hadj Hpb Hpe Hlen.
  destruct (hash meta !! c_name) as [v |] eqn:Hlk; [| discriminate].
  injection Hadj as -> Hbeg Hend.
  revert Hbeg Hend. case_cmp; intros; subst; cint_lia.
Qed.

(** X4.  For in-range coordinates and a name in the index whose length
    [L] fits [hts_pos_t], [faidx_adjust_position] leaves a begin in
    [0, L] and an end with [begin <= end + 1 <= max L 1]: the range
    [begin, end + 1) handed to [fai_retrieve] is never negative and never
    passes the sequence end, except that it takes one byte of an empty
    sequence when the end given is negative. *)
Theorem adjust_position_bounds (meta : faidx_meta_t) (c_name : string)
    (p_beg_i p_end_i : Z) (val : faidx1_t) (b e : Z) :
  faidx_adjust_position meta 1 c_name p_beg_i p_end_i = Some (val, b, e) ->
  in_i64 p_beg_i -> in_i64 p_end_i ->
  0 <= len val <= INT64_MAX ->
  hash meta !! c_name = Some val
  /\ 0 <= b <= len val
  /\ b <= e + 1 <= Z.max (len val) 1
  /\ (0 <= p_end_i -> e + 1 <= len val).
Proof.
  intros Hadj Hpb Hpe Hlen. split.
  - unfold faidx_adjust_position in Hadj.
    destruct (hash meta !! c_name); [| discriminate].
    injection Hadj as -> _ _. reflexivity.
  - exact (adjust_begin_end _ _ _ _ _ _ _ Hadj Hpb Hpe Hlen).
Qed.

Lemma adjust_position_bounds_witness :
  hash t_meta !! "chr1"%string = Some chr1
  /\ 0 <= 100 <= len chr1
  /\ 100 <= 100 + 1 <= Z.max (len chr1) 1
  /\ (0 <= 100 -> 100 + 1 <= len chr1).
Proof.
  apply (adjust_position_bounds t_meta "chr1" 200 100 chr1 100 100).
  - reflexivity.
  - unfold_cint; lia.
  - unfold_cint; lia.
  - simpl; unfold_cint; lia.
Defined.

(** X5.  A name that is not in the index: both fetches return NULL with
    [*len = -2] and do nothing to the decoder, whatever the format and
    the coordinates. *)
Theorem fetch_unknown_name (reader : faidx_reader_t) (c_name : string)
    (p_beg_i p_end_i : Z) :
  hash (meta_of reader) !! c_name = None ->
  faidx_reader_fetch_seq reader c_name p_beg_i p_end_i = Ret (None, -2)
  /\ faidx_reader_fetch_qual reader c_name p_beg_i p_end_i = Ret (None, -2).
Proof.
  intros Hlk.
  unfold faidx_reader_fetch_seq, faidx_reader_fetch_qual,
    faidx_adjust_position.
  rewrite Hlk. split; [reflexivity |].
  destruct (negb _); reflexivity.
Qed.

Lemma fetch_unknown_name_witness :
  faidx_reader_fetch_seq t_reader "chrX" 0 9 = Ret (None, -2)
  /\ faidx_reader_fetch_qual t_reader "chrX" 0 9 = Ret (None, -2).
Proof. apply (fetch_unknown_name t_reader "chrX" 0 9). reflexivity. Defined.

(** X6.  Negative coordinates.  A negative begin with a non-negative end
    is read as begin 0.  With a negative end, whatever the begin, the
    fetch is the one-byte range [0, 1) at the start of the sequence,
    also for a sequence of length 0. *)
Theorem fetch_seq_negative_coordinates (reader : faidx_reader_t)
    (c_name : string) (val : faidx1_t) (p_beg_i p_end_i : Z) :
  hash (meta_of reader) !! c_name = Some val ->
  0 <= len val ->
  (p_beg_i < 0 <= p_end_i ->
   faidx_reader_fetch_seq reader c_name p_beg_i p_end_i
   = faidx_reader_fetch_seq reader c_name 0 p_end_i)
  /\ (p_end_i < 0 ->
      faidx_reader_fetch_seq reader c_name p_beg_i p_end_i
      = fai_retrieve (bgzf reader) val (seq_offset val) 0 1).
Proof.
  intros Hlk Hlen. unfold faidx_reader_fetch_seq, faidx_adjust_position.
  rewrite Hlk. split; intros Hneg.
  - case_cmp; try (exfalso; cint_lia); f_equal; cint_lia.
  - case_cmp; try (exfalso; cint_lia); f_equal; cint_lia.
Qed.

Lemma fetch_seq_negative_coordinates_witness :
  (-5 < 0 <= 9 ->
   faidx_reader_fetch_seq t_reader "chr1" (-5) 9
   = faidx_reader_fetch_seq t_reader "chr1" 0 9)
  /\ (-1 < 0 ->
      faidx_reader_fetch_seq t_reader "chr1" (-5) (-1)
      = fai_retrieve (bgzf t_reader) chr1 (seq_offset chr1) 0 1).
Proof.
  split.
  - apply (fetch_seq_negative_coordinates t_reader "chr1" chr1 (-5) 9).
    + reflexivity.
    + simpl; lia.
  - apply (fetch_seq_negative_coordinates t_reader "chr1" chr1 (-5) (-1)).
    + reflexivity.
    + simpl; lia.
Defined.

(** ** What a fetch can report *)

(** Whatever the decoder answers, [fai_retrieve] ends in one of two
    ways: NULL with [*len = -1], or a buffer with [*len = end - beg]. *)
Lemma fai_retrieve_shape {W : Type} (H : handler W) (w : W) (bz : BGZF)
    (val : faidx1_t) (offset beg end_ : Z) :
  fst (run H (fai_retrieve bz val offset beg end_) w) = (None, -1)
  \/ exists data : list byte,
       fst (run H (fai_retrieve bz val offset beg end_) w)
       = (Some data, i64_sub end_ beg).
Proof.
  unfold fai_retrieve.
  destruct (_ <=? _); [left; reflexivity |].
  destruct (_ <=? _); [left; reflexivity |].
  cbn [run]. destruct (H _ _ w) as [ret w1].
  destruct (ret <? 0); [left; reflexivity |].
  cbn [run]. destruct (H _ _ w1) as [buffer w2].
  destruct buffer; cbn [negb]; [| left; reflexivity].
  destruct (_ <=? _).
  - cbn [run]. destruct (H _ _ w2) as [r w3].
    destruct (_ <? _); [left; reflexivity | right; eauto].
  - cbn [run]. destruct (H _ _ w2) as [r w3].
    destruct (_ <? _); [left; reflexivity |].
    rewrite run_bind.
    destruct (run H (read_lines _ _ _ _ _) w3) as [[[s rest] |] w4];
      [| left; reflexivity].
    destruct (0 <? rest); [| right; eauto].
    cbn [run]. destruct (H _ _ w4) as [r' w5].
    destruct (_ <? _); [left; reflexivity | right; eauto].
Qed.

(** X7.  Whatever the decoder does, [faidx_reader_fetch_seq] on in-range
    coordinates ends in one of three ways: NULL with [*len = -2], exactly
    when the name is not in the index; NULL with [*len = -1]; or a buffer
    with a length between 0 and [max L 1].  (Lengths of the index are
    taken to fit [hts_pos_t].) *)
Theorem fetch_seq_result_shape {W : Type} (H : handler W) (w : W)
    (reader : faidx_reader_t) (c_name : string) (p_beg_i p_end_i : Z) :
  in_i64 p_beg_i -> in_i64 p_end_i ->
  (forall val : faidx1_t,
     hash (meta_of reader) !! c_name = Some val ->
     0 <= len val <= INT64_MAX) ->
  match fst (run H (faidx_reader_fetch_seq reader c_name p_beg_i p_end_i) w)
  with
  | (None, l) =>
      (l = -2 /\ hash (meta_of reader) !! c_name = None)
      \/ (l = -1 /\ is_Some (hash (meta_of reader) !! c_name))
  | (Some _, l) =>
      exists val : faidx1_t,
        hash (meta_of reader) !! c_name = Some val
        /\ 0 <= l <= Z.max (len val) 1
  end.
Proof.
  intros Hpb Hpe Hlens. unfold faidx_reader_fetch_seq.
  destruct (faidx_adjust_position (meta_of reader) 1 c_name p_beg_i p_end_i)
    as [[[val b] e] |] eqn:Hadj.
  - assert (Hlk : hash (meta_of reader) !! c_name = Some val).
    { unfold faidx_adjust_position in Hadj.
      destruct (hash (meta_of reader) !! c_name); [| discriminate].
      injection Hadj as -> _ _. reflexivity. }
    destruct (adjust_begin_end _ _ _ _ _ _ _ Hadj Hpb Hpe (Hlens val Hlk))
      as (Hb & He & _).
    destruct (fai_retrieve_shape H w (bgzf reader) val (seq_offset val) b
                (i64_add e 1)) as [Hnull | [data Hdata]].
    + rewrite Hnull. right. split; [reflexivity |]. rewrite Hlk. eauto.
    + rewrite Hdata. exists val. split; [exact Hlk |].
      pose proof (Hlens val Hlk). cint_lia.
  - unfold faidx_adjust_position in Hadj.
    destruct (hash (meta_of reader) !! c_name) eqn:Hlk; [discriminate |].
    left. split; reflexivity.
Qed.

Lemma fetch_seq_result_shape_witness :
  match fst (run sim (faidx_reader_fetch_seq t_reader "chr1" 170 400) t_world)
  with
  | (None, l) =>
      (l = -2 /\ hash (meta_of t_reader) !! "chr1"%string = None)
      \/ (l = -1 /\ is_Some (hash (meta_of t_reader) !! "chr1"%string))
  | (Some _, l) =>
      exists val : faidx1_t,
        hash (meta_of t_reader) !! "chr1"%string = Some val
        /\ 0 <= l <= Z.max (len val) 1
  end.
Proof.
  apply (fetch_seq_result_shape sim t_world t_reader "chr1" 170 400).
  - unfold_cint; lia.
  - unfold_cint; lia.
  - intros val Hval. vm_compute in Hval. injection Hval as <-.
    simpl. unfold_cint. lia.
Defined.

(** ** The block-offset sidecar, read back *)

Lemma byte_of_value (x : Z) : 0 <= x < 256 -> Z.of_N (Byte.to_N (byte_of x)) = x.
Proof.
  intros Hx. unfold byte_of.
  destruct (Byte.of_N (Z.to_N x)) as [b |] eqn:Hb.
  - apply Byte.to_of_N in Hb. rewrite Hb. lia.
  - apply Byte.of_N_None_iff in Hb. lia.
Qed.

Lemma le_bytes_length (k : nat) (z : Z) : length (le_bytes k z) = k.
Proof. revert z. induction k as [| k IH]; intros z; simpl; [| rewrite IH]; reflexivity. Qed.

Lemma le_value_le_bytes (k : nat) :
  forall z : Z, 0 <= z < 256 ^ Z.of_nat k -> le_value (le_bytes k z) = z.
Proof.
  induction k as [| k IH]; intros z Hz.
  - simpl in *. lia.
  - cbn [le_bytes le_value fold_right].
    change (fold_right (fun b acc => Z.of_N (Byte.to_N b) + 256 * acc) 0
              (le_bytes k (z / 256)))
      with (le_value (le_bytes k (z / 256))).
    rewrite Nat2Z.inj_succ, Z.pow_succ_r in Hz by lia.
    rewrite IH by (split; [apply Z.div_pos; lia | apply Z.div_lt_upper_bound; lia]).
    rewrite byte_of_value by (apply Z.mod_pos_bound; lia).
    pose proof (Z.div_mod z 256 ltac:(lia)). lia.
Qed.

Lemma le_value_nonneg (bs : list byte) : 0 <= le_value bs.
Proof.
  induction bs as [| b bs IH]; [reflexivity |].
  cbn [le_value fold_right].
  change (fold_right (fun b acc => Z.of_N (Byte.to_N b) + 256 * acc) 0 bs)
    with (le_value bs).
  lia.
Qed.

Lemma hread_uint64_encode (z : Z) (rest : list byte) :
  in_u64 z -> hread_uint64 (le_bytes 8 z ++ rest) = Some (z, rest).
Proof.
  intros Hz. unfold hread_uint64.
  rewrite length_app, le_bytes_length. cbn [Nat.leb Nat.add].
  rewrite (take_app_length' _ _ 8) by (rewrite le_bytes_length; reflexivity).
  rewrite (drop_app_length' _ _ 8) by (rewrite le_bytes_length; reflexivity).
  rewrite le_value_le_bytes by (unfold_cint; simpl; lia).
  reflexivity.
Qed.

Lemma read_offs_encode (pairs : list (Z * Z)) :
  Forall (fun p => in_u64 (fst p) /\ in_u64 (snd p)) pairs ->
  forall (rest : list byte) (acc : list bgzidx1_t),
    read_offs (length pairs) (flat_map encode_pair pairs ++ rest) acc
    = Some (acc ++ table_of pairs).
Proof.
  induction 1 as [| [c u] pairs [Hc Hu] _ IH]; intros rest acc.
  - simpl. rewrite app_nil_r. reflexivity.
  - cbn [length flat_map read_offs]. unfold encode_pair at 1.
    cbn [fst snd] in *. rewrite <- !app_assoc.
    rewrite hread_uint64_encode by exact Hc.
    rewrite hread_uint64_encode by exact Hu.
    rewrite IH. cbn [table_of map fst snd]. rewrite <- app_assoc. reflexivity.
Qed.

Lemma read_offs_short (count : nat) :
  forall (fp : hFILE) (acc : list bgzidx1_t),
    (length fp < 16 * count)%nat -> read_offs count fp acc = None.
Proof.
  induction count as [| count IH]; intros fp acc Hlen; [lia |].
  cbn [read_offs]. unfold hread_uint64 at 1.
  destruct (Nat.leb_spec 8 (length fp)); [| reflexivity].
  unfold hread_uint64 at 1. rewrite length_drop.
  destruct (Nat.leb_spec 8 (length fp - 8)); [| reflexivity].
  apply IH. rewrite !length_drop. lia.
Qed.

(** X8.  Round trip of the sidecar.  If [bname] opens on the encoding of
    a list of offset pairs (the count, then the pairs, 64-bit little
    endian), followed by any further bytes, and both allocations
    succeed, [bgzf_index_load_direct] returns the table of those pairs
    with the entry [(0, 0)] in front; bytes after the announced pairs
    are not looked at. *)
Theorem gzi_round_trip {W : Type} (H : handler W) (w w1 w2 w3 : W)
    (bname : string) (pairs : list (Z * Z)) (trailing : list byte) :
  Forall (fun p => in_u64 (fst p) /\ in_u64 (snd p)) pairs ->
  Z.of_nat (length pairs) < INT_MAX ->
  H _ (Hopen bname) w = (Some (encode_gzi pairs ++ trailing), w1) ->
  H bool (Alloc sizeof_bgzidx) w1 = (true, w2) ->
  H bool (Alloc (to_u64 (to_u64 (Z.of_nat (length pairs) + 1)
                         * sizeof_bgzidx1))) w2 = (true, w3) ->
  run H (bgzf_index_load_direct bname) w
  = (Some {| noffs := Z.of_nat (length pairs) + 1;
             moffs := Z.of_nat (length pairs) + 1;
             offs := {| caddr := 0; uaddr := 0 |} :: table_of pairs |}, w3).
Proof.
  intros Hpairs Hcount Hopen Ha1 Ha2. unfold bgzf_index_load_direct.
  rewrite (run_act _ _ _ _ _ _ Hopen).
  rewrite (run_act _ _ _ _ _ _ Ha1). cbn [negb].
  unfold encode_gzi. rewrite <- app_assoc.
  rewrite hread_uint64_encode by (unfold_cint; lia).
  assert (Hn : to_i32 (u64_add (Z.of_nat (length pairs)) 1)
               = Z.of_nat (length pairs) + 1) by cint_lia.
  rewrite Hn. rewrite (run_act _ _ _ _ _ _ Ha2). cbn [negb].
  replace (Z.to_nat (Z.of_nat (length pairs) + 1 - 1)) with (length pairs)
    by lia.
  rewrite read_offs_encode by exact Hpairs. reflexivity.
Qed.

Lemma gzi_round_trip_witness :
  run sim (bgzf_index_load_direct "t.fa.gz.gzi")
    (gz_world (encode_gzi [(100, 65280); (200, 130560)] ++ [NL]) [])
  = (Some {| noffs := Z.of_nat (length [(100, 65280); (200, 130560)]) + 1;
             moffs := Z.of_nat (length [(100, 65280); (200, 130560)]) + 1;
             offs := {| caddr := 0; uaddr := 0 |}
                     :: table_of [(100, 65280); (200, 130560)] |},
     gz_world (encode_gzi [(100, 65280); (200, 130560)] ++ [NL]) []).
Proof.
  apply (gzi_round_trip sim
           (gz_world (encode_gzi [(100, 65280); (200, 130560)] ++ [NL]) [])
           (gz_world (encode_gzi [(100, 65280); (200, 130560)] ++ [NL]) [])
           (gz_world (encode_gzi [(100, 65280); (200, 130560)] ++ [NL]) [])
           (gz_world (encode_gzi [(100, 65280); (200, 130560)] ++ [NL]) [])
           "t.fa.gz.gzi" [(100, 65280); (200, 130560)] [NL]).
  - repeat constructor; simpl; unfold_cint; lia.
  - vm_compute. reflexivity.
  - vm_compute. reflexivity.
  - reflexivity.
  - reflexivity.
Defined.

(** X9.  A sidecar whose first eight bytes announce a count [N] below
    [INT_MAX] and which holds fewer than [8 + 16 N] bytes is rejected
    whole: whatever the allocations answer, [bgzf_index_load_direct]
    returns NULL.  (The bound on [N] matters: the count plus one is
    stored in an [int], see [gzi_count_truncated].) *)
Theorem gzi_short_stream {W : Type} (H : handler W) (w w1 : W)
    (bname : string) (fp : hFILE) :
  H _ (Hopen bname) w = (Some fp, w1) ->
  le_value (take 8 fp) < INT_MAX ->
  Z.of_nat (length fp) < 8 + 16 * le_value (take 8 fp) ->
  fst (run H (bgzf_index_load_direct bname) w) = None.
Proof.
  intros Hopen Hcount Hshort. unfold bgzf_index_load_direct.
  rewrite (run_act _ _ _ _ _ _ Hopen).
  cbn [run]. destruct (H _ _ w1) as [idx w2].
  destruct idx; cbn [negb]; [| reflexivity].
  pose proof (le_value_nonneg (take 8 fp)) as Hnn.
  unfold hread_uint64. destruct (Nat.leb_spec 8 (length fp)); [| reflexivity].
  cbn [run]. destruct (H _ _ w2) as [offs w3].
  destruct offs; cbn [negb]; [| reflexivity].
  assert (Hn : to_i32 (u64_add (le_value (take 8 fp)) 1)
               = le_value (take 8 fp) + 1) by cint_lia.
  rewrite Hn, read_offs_short; [reflexivity |].
  rewrite length_drop. lia.
Qed.

Lemma gzi_short_stream_witness :
  fst (run sim (bgzf_index_load_direct "t.fa.gz.gzi") (gz_world gzi_cut []))
  = None.
Proof.
  apply (gzi_short_stream sim (gz_world gzi_cut []) (gz_world gzi_cut [])
           "t.fa.gz.gzi" gzi_cut).
  - reflexivity.
  - vm_compute. reflexivity.
  - vm_compute. reflexivity.
Defined.

(** Beyond that bound the count is cut to 32 bits: a sidecar of 24 bytes
    that announces [2^32 + 1] entries is read as one of a single entry. *)
Example gzi_count_truncated :
  fst (run sim (bgzf_index_load_direct "t.fa.gz.gzi")
         (gz_world (le_bytes 8 (two32 + 1) ++ le_bytes 8 100
                    ++ le_bytes 8 65280) []))
  = Some {| noffs := 2; moffs := 2;
            offs := [mk_bgzidx1 0 0; mk_bgzidx1 100 65280] |}.
Proof. vm_compute. reflexivity. Qed.

(** ** What a load returns *)

Lemma kstrdup_inv {W : Type} (H : handler W) (str s : string) (w w' : W) :
  run H (kstrdup str) w = (Some s, w') -> s = str.
Proof.
  unfold kstrdup. cbn [run]. destruct (H _ _ w) as [[|] w1]; cbn [run];
    intros Hrun; [| discriminate].
  injection Hrun as -> _. reflexivity.
Qed.

Lemma dup_names_inv {W : Type} (H : handler W) (names : list string) :
  forall (acc l : list string) (w w' : W),
    run H (dup_names names acc) w = (Some l, w') -> l = acc ++ names.
Proof.
  induction names as [| nm rest IH]; intros acc l w w' Hrun.
  - cbn in Hrun. injection Hrun as <- _. rewrite app_nil_r. reflexivity.
  - cbn [dup_names] in Hrun. rewrite run_bind in Hrun.
    destruct (run H (kstrdup nm) w) as [[s |] w1] eqn:Hk;
      [| discriminate].
    apply kstrdup_inv in Hk. subst s.
    apply IH in Hrun. rewrite Hrun, <- app_assoc. reflexivity.
Qed.

(** The two ways [faidx_meta_load] can end, whatever the calls answer:
    NULL, or the metadata built from the index [fai_load3_format]
    returned. *)
Lemma faidx_meta_load_cases {W : Type} (H : handler W) (w : W)
    (filename : string) (fmt : fai_format_options) (flags : Z)
    (P : option faidx_meta_t * W -> Prop) :
  (forall w' : W, P (None, w')) ->
  (forall (fai : faidx_t) (table : option bgzidx_t) (w' : W),
     (match fai_bgzf fai with
      | Some b => is_compressed b
      | None => false
      end = false -> table = None) ->
     P (Some {| n := fai_n fai; m := fai_m fai;
                name := take (Z.to_nat (fai_n fai)) (fai_name fai);
                hash := kh_put_names fai
                          (take (Z.to_nat (fai_n fai)) (fai_name fai));
                format := fai_format fai;
                fasta_path := filename;
                fai_path := (filename ++ ".fai")%string;
                gzi_path := (filename ++ ".gzi")%string;
                bgzf_idx := table; ref_count := 1;
                is_bgzf := match fai_bgzf fai with
                           | Some b => is_compressed b
                           | None => false
                           end |}, w')) ->
  P (run H (faidx_meta_load (Some filename) fmt flags) w).
Proof.
  intros Hnull Hsome. unfold faidx_meta_load.
  cbn [run]. destruct (H _ _ w) as [[|] w1]; cbn [negb run]; [| apply Hnull].
  destruct (H _ _ w1) as [[|] w2]; cbn [negb run]; [| apply Hnull].
  destruct (H _ _ w2) as [[fai |] w3]; cbn [run]; [| apply Hnull].
  destruct (H _ _ w3) as [[|] w4]; cbn [negb run]; [| apply Hnull].
  destruct (H _ _ w4) as [rc w5].
  destruct (rc =? 0); cbn [negb run]; [| apply Hnull].
  destruct (H _ _ w5) as [[|] w6]; cbn [negb run]; [| apply Hnull].
  rewrite run_bind.
  destruct (run H (dup_names _ _) w6) as [[copied |] w7] eqn:Hdup;
    cbn [run]; [| apply Hnull].
  apply dup_names_inv in Hdup. cbn [app] in Hdup. subst copied.
  destruct (H _ _ w7) as [[|] w8]; cbn [negb run]; [| apply Hnull].
  rewrite run_bind.
  destruct (run H (kstrdup filename) w8) as [p1 w9] eqn:H1.
  rewrite run_bind.
  destruct (run H (kstrdup _) w9) as [p2 w10] eqn:H2.
  rewrite run_bind.
  destruct (run H (kstrdup _) w10) as [p3 w11] eqn:H3.
  destruct p1 as [p1 |]; [| apply Hnull].
  destruct p2 as [p2 |]; [| apply Hnull].
  destruct p3 as [p3 |]; [| apply Hnull].
  apply kstrdup_inv in H1, H2, H3. subst p1 p2 p3.
  rewrite run_bind.
  remember (match fai_bgzf fai with
            | Some b => is_compressed b
            | None => false
            end) as comp eqn:Hcomp.
  destruct comp.
  - destruct (run H _ w11) as [table w12]. cbn [run].
    pose proof (Hsome fai table w12) as HP. rewrite <- Hcomp in HP.
    apply HP. discriminate.
  - cbn [run]. pose proof (Hsome fai None w11) as HP.
    rewrite <- Hcomp in HP. apply HP. reflexivity.
Qed.

(** X10.  Whatever the calls answer, a metadata object that
    [faidx_meta_load] returns was loaded from a non-NULL file name, holds
    exactly one reference, records the three paths [filename],
    [filename.fai] and [filename.gzi], and has a block-offset table only
    if the source is BGZF-compressed. *)
Theorem load_postcondition {W : Type} (H : handler W) (w : W)
    (filename : option string) (fmt : fai_format_options) (flags : Z)
    (meta : faidx_meta_t) :
  fst (run H (faidx_meta_load filename fmt flags) w) = Some meta ->
  exists fn : string,
    filename = Some fn
    /\ ref_count meta = 1
    /\ fasta_path meta = fn
    /\ fai_path meta = (fn ++ ".fai")%string
    /\ gzi_path meta = (fn ++ ".gzi")%string
    /\ (is_bgzf meta = false -> bgzf_idx meta = None).
Proof.
  destruct filename as [fn |]; [| discriminate].
  intros Hrun. exists fn. split; [reflexivity |].
  revert Hrun. apply (faidx_meta_load_cases H w fn fmt flags).
  - discriminate.
  - intros fai table w' Htab Hrun. injection Hrun as <-.
    cbn. repeat split; try reflexivity. exact Htab.
Qed.

Lemma load_postcondition_witness :
  exists fn : string,
    Some "t.fa"%string = Some fn
    /\ ref_count t_loaded = 1
    /\ fasta_path t_loaded = fn
    /\ fai_path t_loaded
       = (fn ++ ".fai")%string
    /\ gzi_path t_loaded
       = (fn ++ ".gzi")%string
    /\ (is_bgzf t_loaded
        = false ->
        bgzf_idx t_loaded
        = None).
Proof.
  apply (load_postcondition sim (dup_world dup_fai_dropped)
           (Some "t.fa"%string) FAI_FASTA 0).
  vm_compute. reflexivity.
Defined.

(** X11.  In a metadata object that [faidx_meta_load] returns, the names
    that [faidx_meta_iseq] lists are exactly the names
    [faidx_meta_has_seq] accepts. *)
Theorem loaded_names_resolve {W : Type} (H : handler W) (w : W)
    (filename : option string) (fmt : fai_format_options) (flags : Z)
    (meta : faidx_meta_t) :
  fst (run H (faidx_meta_load filename fmt flags) w) = Some meta ->
  forall nm : string,
    faidx_meta_has_seq (Some meta) (Some nm) = true
    <-> exists i : Z, faidx_meta_iseq (Some meta) i = Some nm.
Proof.
  destruct filename as [fn |]; [| discriminate].
  apply (faidx_meta_load_cases H w fn fmt flags).
  - discriminate.
  - intros fai table w' _ Hrun nm. injection Hrun as <-.
    unfold faidx_meta_has_seq, faidx_meta_iseq. cbn [hash name n].
    rewrite kh_put_names_lookup.
    set (names := take (Z.to_nat (fai_n fai)) (fai_name fai)).
    assert (Hlen : (length names <= Z.to_nat (fai_n fai))%nat)
      by (subst names; rewrite length_take; lia).
    split.
    + intros Hhas. apply bool_decide_eq_true in Hhas.
      destruct (decide (nm ∈ names)) as [Hin |]; [| destruct Hhas; discriminate].
      apply list_elem_of_lookup in Hin as [i Hi].
      pose proof (lookup_lt_Some _ _ _ Hi) as Hlt.
      exists (Z.of_nat i).
      destruct (Z.leb_spec 0 (Z.of_nat i)); [| lia].
      destruct (Z.ltb_spec (Z.of_nat i) (fai_n fai)); [| lia].
      cbn [andb]. rewrite Nat2Z.id. exact Hi.
    + intros [i Hi]. destruct ((0 <=? i) && (i <? fai_n fai)); [| discriminate].
      apply bool_decide_eq_true.
      destruct (decide (nm ∈ names)) as [| Hnin]; [eauto |].
      exfalso. apply Hnin. apply list_elem_of_lookup. eauto.
Qed.

Lemma loaded_names_resolve_witness :
  faidx_meta_has_seq (Some t_loaded) (Some "chr1"%string) = true
  <-> exists i : Z, faidx_meta_iseq (Some t_loaded) i = Some "chr1"%string.
Proof.
  apply (loaded_names_resolve sim (dup_world dup_fai_dropped)
           (Some "t.fa"%string) FAI_FASTA 0 t_loaded).
  vm_compute. reflexivity.
Defined.

(** ** Readers and references *)

(** X12.  Creating a reader and destroying it again leaves the metadata
    exactly as it was: for a live object, a successful
    [faidx_reader_create] followed by [faidx_reader_destroy] of the
    reader it returned gives back the same object, count included. *)
Theorem reader_create_destroy_round_trip {W : Type} (H : handler W)
    (w w1 w2 : W) (mt : faidx_meta_t) (b : BGZF) :
  1 <= ref_count mt <= INT_MAX ->
  H bool (Alloc sizeof_reader) w = (true, w1) ->
  H _ (BgzfOpen (fasta_path mt)) w1 = (Some b, w2) ->
  exists (mem' : cell) (r : faidx_reader_t),
    run H (faidx_reader_create Ptr (Live mt)) w = ((Some mem', Some r), w2)
    /\ faidx_reader_destroy (Some r) mem' = Some (Live mt).
Proof.
  intros Hrc Halloc Hopen.
  rewrite (reader_create_run H w w1 w2 mt (Some b) Halloc Hopen).
  cbv zeta. do 2 eexists. split; [reflexivity |].
  cbn [faidx_reader_destroy]. apply ref_then_destroy. exact Hrc.
Qed.

Lemma reader_create_destroy_round_trip_witness :
  exists (mem' : cell) (r : faidx_reader_t),
    run sim (faidx_reader_create Ptr (Live t_meta)) t_world
    = ((Some mem', Some r),
       set_decoders t_world [(t_fa, 0); (t_fa, 0)])
    /\ faidx_reader_destroy (Some r) mem' = Some (Live t_meta).
Proof.
  apply (reader_create_destroy_round_trip sim t_world t_world
           (set_decoders t_world [(t_fa, 0); (t_fa, 0)]) t_meta
           {| fd := 1; is_compressed := false; idx := None |}).
  - simpl. unfold_cint. lia.
  - reflexivity.
  - reflexivity.
Defined.

(** X13.  The reader [faidx_reader_create] returns sees the metadata
    with one reference more, and reads through the decoder that was
    opened; on a BGZF source that decoder carries the block-offset table
    of the metadata itself, not one of its own. *)
Theorem reader_shares_index {W : Type} (H : handler W) (w w1 w2 : W)
    (mt : faidx_meta_t) (b : BGZF) (r : faidx_reader_t) (mem' : cell) :
  in_int (ref_count mt) -> ref_count mt < INT_MAX ->
  H bool (Alloc sizeof_reader) w = (true, w1) ->
  H _ (BgzfOpen (fasta_path mt)) w1 = (Some b, w2) ->
  fst (run H (faidx_reader_create Ptr (Live mt)) w) = (Some mem', Some r) ->
  mem' = Live (set_ref_count mt (ref_count mt + 1))
  /\ meta_of r = set_ref_count mt (ref_count mt + 1)
  /\ fd (bgzf r) = fd b
  /\ (is_bgzf mt = true -> idx (bgzf r) = bgzf_idx mt)
  /\ (is_bgzf mt = false -> bgzf r = b).
Proof.
  intros Hin Hlt Halloc Hopen.
  rewrite (reader_create_run H w w1 w2 mt (Some b) Halloc Hopen).
  cbv zeta. cbn [fst]. rewrite to_i32_small by (unfold_cint; lia).
  intros Hres. injection Hres as <- <-. cbn [meta_of bgzf].
  split; [reflexivity |]. split; [reflexivity |].
  destruct (is_bgzf mt); cbn [fd idx]; repeat split; try reflexivity;
    discriminate.
Qed.

Lemma reader_shares_index_witness :
  Live (set_ref_count t_meta 3)
  = Live (set_ref_count t_meta (ref_count t_meta + 1))
  /\ meta_of (mk_reader (set_ref_count t_meta 3) (mk_BGZF 1 false None))
     = set_ref_count t_meta (ref_count t_meta + 1)
  /\ fd (bgzf (mk_reader (set_ref_count t_meta 3) (mk_BGZF 1 false None)))
     = fd (mk_BGZF 1 false None)
  /\ (is_bgzf t_meta = true ->
      idx (bgzf (mk_reader (set_ref_count t_meta 3) (mk_BGZF 1 false None)))
      = bgzf_idx t_meta)
  /\ (is_bgzf t_meta = false ->
      bgzf (mk_reader (set_ref_count t_meta 3) (mk_BGZF 1 false None))
      = mk_BGZF 1 false None).
Proof.
  apply (reader_shares_index sim t_world t_world
           (set_decoders t_world [(t_fa, 0); (t_fa, 0)]) t_meta
           (mk_BGZF 1 false None)).
  - simpl. unfold_cint. lia.
  - simpl. unfold_cint. lia.
  - reflexivity.
  - reflexivity.
  - reflexivity.
Defined.

(** How the list of live readers moves along a run. *)
Lemma exec_readers (ops : list op) :
  forall st0 st : rstate,
    exec ops st0 = Some st ->
    acquires ops - releases ops
    = count_ops is_ref ops - count_ops is_destroy ops
      + Z.of_nat (length (snd st)) - Z.of_nat (length (snd st0)).
Proof.
  induction ops as [| o rest IH]; intros st0 st Hex.
  - injection Hex as <-. unfold acquires, releases. simpl. lia.
  - cbn [exec] in Hex.
    destruct (exec_op o st0) as [st1 |] eqn:Hop; [| discriminate].
    specialize (IH _ _ Hex).
    assert (Hstep : delta o
                    = (if is_ref o then 1 else 0)
                      - (if is_destroy o then 1 else 0)
                      + Z.of_nat (length (snd st1))
                      - Z.of_nat (length (snd st0))).
    { destruct st0 as [mem rs]. unfold delta.
      destruct o as [| | reader_ok opened | i]; cbn [exec_op] in Hop.
      - destruct (faidx_meta_ref Ptr mem); [| discriminate].
        injection Hop as <-. cbn. lia.
      - destruct (faidx_meta_destroy Ptr mem); [| discriminate].
        injection Hop as <-. cbn. lia.
      - destruct mem as [mt |].
        + destruct reader_ok.
          * rewrite (reader_create_run _ tt tt tt mt opened eq_refl eq_refl)
              in Hop.
            cbv zeta in Hop. destruct opened as [bz |]; cbn [fst] in Hop.
            -- injection Hop as <-. cbn. rewrite length_app. cbn. lia.
            -- destruct (faidx_meta_destroy Ptr _); [| discriminate].
               injection Hop as <-. cbn. lia.
          * rewrite (reader_create_no_memory _ tt tt (Live mt) eq_refl) in Hop.
            cbn [fst] in Hop. injection Hop as <-. cbn. lia.
        + destruct reader_ok.
          * simpl in Hop. discriminate.
          * rewrite (reader_create_no_memory _ tt tt Freed eq_refl) in Hop.
            cbn [fst] in Hop. injection Hop as <-. cbn. lia.
      - destruct (rs !! i) as [r |] eqn:Hr; [| discriminate].
        destruct (faidx_reader_destroy (Some r) mem); [| discriminate].
        injection Hop as <-. cbn [is_acquire is_release is_ref is_destroy snd].
        pose proof (lookup_lt_Some _ _ _ Hr).
        rewrite length_delete by eauto. cbn. lia. }
    rewrite balance_cons. cbn [count_ops]. lia.
Qed.

(** X14.  Along every defined run from a freshly loaded index, shorter
    than [INT_MAX], the count of a live object is the number of holders
    outside readers (the loader, plus [faidx_meta_ref], minus
    [faidx_meta_destroy] calls) plus the number of live readers; and the
    storage is freed exactly when that sum is 0.  So as long as the
    callers give back no more references than they hold, the index
    outlives every reader. *)
Theorem refcount_counts_readers (m0 : faidx_meta_t) (ops : list op)
    (st : rstate) :
  ref_count m0 = 1 ->
  Z.of_nat (length ops) < INT_MAX ->
  exec ops (Live m0, []) = Some st ->
  match fst st with
  | Live mt => ref_count mt = holders ops + Z.of_nat (length (snd st))
               /\ 0 < ref_count mt
  | Freed => holders ops + Z.of_nat (length (snd st)) = 0
  end.
Proof.
  intros Hrc Hlen Hex.
  pose proof (exec_readers ops _ _ Hex) as Hrd. cbn [snd length] in Hrd.
  pose proof (exec_balance ops m0 [] st ltac:(lia) ltac:(lia) Hex) as Hb.
  cbv zeta in Hb. rewrite Hrc in Hb. destruct Hb as (H0 & Hfr & Hlive).
  unfold holders.
  destruct (Z.eq_dec (1 + (acquires ops - releases ops)) 0) as [Hz | Hnz].
  - rewrite (proj2 Hfr Hz). lia.
  - rewrite (Hlive ltac:(lia)). cbn [ref_count set_ref_count]. lia.
Qed.

Lemma refcount_counts_readers_witness :
  match fst (Live (set_ref_count fresh_meta 2),
             [mk_reader (set_ref_count fresh_meta 3) t_bgzf]) with
  | Live mt =>
      ref_count mt
      = holders [OpRef; OpReaderCreate true (Some t_bgzf); OpDestroy]
        + Z.of_nat (length (snd (Live (set_ref_count fresh_meta 2),
                                 [mk_reader (set_ref_count fresh_meta 3)
                                    t_bgzf])))
      /\ 0 < ref_count mt
  | Freed =>
      holders [OpRef; OpReaderCreate true (Some t_bgzf); OpDestroy]
      + Z.of_nat (length (snd (Live (set_ref_count fresh_meta 2),
                               [mk_reader (set_ref_count fresh_meta 3)
                                  t_bgzf]))) = 0
  end.
Proof.
  apply (refcount_counts_readers fresh_meta
           [OpRef; OpReaderCreate true (Some t_bgzf); OpDestroy]).
  - reflexivity.
  - vm_compute. reflexivity.
  - reflexivity.
Defined.

(** ** Queries *)

(** X15.  When the lengths of the index fit [hts_pos_t],
    [faidx_meta_seq_len] returns -1 exactly for the names
    [faidx_meta_has_seq] rejects, and the length of the sequence
    otherwise. *)
Theorem seq_len_agrees_with_has_seq (meta : faidx_meta_t) (seq : string) :
  (forall v : faidx1_t,
     hash meta !! seq = Some v -> 0 <= len v <= INT64_MAX) ->
  (faidx_meta_seq_len (Some meta) (Some seq) = -1
   <-> faidx_meta_has_seq (Some meta) (Some seq) = false)
  /\ (forall v : faidx1_t,
        hash meta !! seq = Some v ->
        faidx_meta_seq_len (Some meta) (Some seq) = len v).
Proof.
  intros Hfit. unfold faidx_meta_seq_len, faidx_meta_has_seq.
  destruct (hash meta !! seq) as [v |] eqn:Hlk.
  - pose proof (Hfit v eq_refl) as Hv.
    rewrite to_i64_small by (unfold_cint; lia).
    split.
    + split.
      * intros Hm. lia.
      * intros Hf. apply bool_decide_eq_false in Hf. exfalso. apply Hf. eauto.
    + intros v' Hv'. injection Hv' as <-. reflexivity.
  - split.
    + split; [intros _ | reflexivity].
      apply bool_decide_eq_false. intros [x Hx]. discriminate.
    + intros v Hv. discriminate.
Qed.

Lemma seq_len_agrees_with_has_seq_witness :
  (faidx_meta_seq_len (Some t_meta) (Some "chr1"%string) = -1
   <-> faidx_meta_has_seq (Some t_meta) (Some "chr1"%string) = false)
  /\ (forall v : faidx1_t,
        hash t_meta !! "chr1"%string = Some v ->
        faidx_meta_seq_len (Some t_meta) (Some "chr1"%string) = len v).
Proof.
  apply (seq_len_agrees_with_has_seq t_meta "chr1").
  intros v Hv. vm_compute in Hv. injection Hv as <-.
  simpl. unfold_cint. lia.
Defined.

(** ** Regions *)

(** X16.  [fai_get_val] clamps a parsed region into the sequence: for a
    length [L] that fits [hts_pos_t] the positions it hands back satisfy
    [0 <= fbeg <= fend <= L], and a region already inside [0, L] with
    [beg <= end] is handed back unchanged.  A negative position counts
    as past the end here (the comparison is unsigned): a negative end
    becomes [L], and a negative begin gives the empty range at the end
    handed back. *)
Theorem fai_get_val_bounds (meta : faidx_meta_t) (tid beg end_ : Z)
    (val : faidx1_t) (fbeg fend : Z) :
  in_i64 beg -> in_i64 end_ ->
  fai_get_val meta (Some (tid, beg, end_)) = GV_val val fbeg fend ->
  0 <= len val <= INT64_MAX ->
  0 <= fbeg <= fend /\ fend <= len val
  /\ (0 <= beg <= end_ -> end_ <= len val -> fbeg = beg /\ fend = end_)
  /\ (end_ < 0 -> fend = len val)
  /\ (beg < 0 -> fbeg = fend).
Proof.
  intros Hb He Hget Hlen. unfold fai_get_val in Hget.
  destruct (tid <? 0); [discriminate |].
  destruct (name meta !! Z.to_nat tid) as [key |]; [| discriminate].
  destruct (hash meta !! key) as [v |]; [| discriminate].
  injection Hget as -> Hfb Hfe. revert Hfb Hfe.
  case_cmp; intros; subst; cint_lia.
Qed.

Lemma fai_get_val_bounds_witness :
  0 <= 10 <= 180 /\ 180 <= len chr1
  /\ (0 <= 10 <= 500 -> 500 <= len chr1 -> 10 = 10 /\ 180 = 500)
  /\ (500 < 0 -> 180 = len chr1)
  /\ (10 < 0 -> 10 = 180).
Proof.
  apply (fai_get_val_bounds t_meta 0 10 500 chr1 10 180).
  - unfold_cint; lia.
  - unfold_cint; lia.
  - reflexivity.
  - simpl; unfold_cint; lia.
Defined.

(** ** Failures of the decoder *)

(** X17.  Past its two guards, [fai_retrieve] gives up cleanly when the
    seek fails or the buffer cannot be allocated: it returns NULL with
    [*len = -1], and the failed call is the last thing it does (a failed
    seek is followed by no allocation and no read, a failed allocation
    by no read). *)
Theorem fai_retrieve_decoder_failures {W : Type} (H : handler W)
    (w w1 w2 : W) (ret : Z) (bz : BGZF) (val : faidx1_t)
    (offset beg end_ : Z) :
  1 <= line_blen val ->
  to_u64 (end_ - beg) < SIZE_MAX - 2 ->
  H Z (BgzfUseek (fd bz) (seek_target val offset beg)) w = (ret, w1) ->
  (ret < 0 ->
   run H (fai_retrieve bz val offset beg end_) w = ((None, -1), w1))
  /\ (0 <= ret ->
      H bool (Alloc (buffer_size val beg end_)) w1 = (false, w2) ->
      run H (fai_retrieve bz val offset beg end_) w = ((None, -1), w2)).
Proof.
  intros Hbl Hsize Hseek. unfold fai_retrieve. rewrite u64_sub_to_u64.
  destruct (Z.leb_spec (SIZE_MAX - 2) (to_u64 (end_ - beg))); [lia |].
  destruct (Z.leb_spec (line_blen val) 0); [lia |].
  rewrite (run_act _ _ _ _ _ _ Hseek). split.
  - intros Hneg. destruct (Z.ltb_spec ret 0); [reflexivity | lia].
  - intros Hpos Halloc. destruct (Z.ltb_spec ret 0); [lia |].
    rewrite (run_act _ _ _ _ _ _ Halloc). reflexivity.
Qed.

Lemma fai_retrieve_decoder_failures_witness :
  (0 < 0 ->
   run sim (fai_retrieve t_bgzf chr1 6 0 10) (set_allocs t_world [false])
   = ((None, -1), set_decoders (set_allocs t_world [false]) [(t_fa, 6)]))
  /\ (0 <= 0 ->
      sim bool (Alloc (buffer_size chr1 0 10))
        (set_decoders (set_allocs t_world [false]) [(t_fa, 6)])
      = (false, set_decoders t_world [(t_fa, 6)]) ->
      run sim (fai_retrieve t_bgzf chr1 6 0 10) (set_allocs t_world [false])
      = ((None, -1), set_decoders t_world [(t_fa, 6)])).
Proof.
  apply (fai_retrieve_decoder_failures sim (set_allocs t_world [false])
           (set_decoders (set_allocs t_world [false]) [(t_fa, 6)])
           (set_decoders t_world [(t_fa, 6)]) 0 t_bgzf chr1 6 0 10).
  - simpl; lia.
  - vm_compute; reflexivity.
  - reflexivity.
Defined.

(** X18.  A file that ends before the range does: when a non-empty
    range within one line is asked for and the in-memory file holds fewer bytes than
    the range needs from the seek position on, the short read makes
    [fai_retrieve] return NULL with [*len = -1]; no partial buffer is
    handed out. *)
Theorem fai_retrieve_short_file (w : world) (bz : BGZF) (val : faidx1_t)
    (content : list byte) (pos0 offset beg end_ : Z) :
  1 <= line_blen val -> 0 <= line_len val -> 0 <= offset ->
  0 <= beg < end_ -> in_i64 end_ ->
  end_ - beg <= line_blen val - beg mod line_blen val ->
  payload_offset val offset beg <= INT64_MAX ->
  reading w (fd bz) content pos0 ->
  Z.of_nat (length content) < payload_offset val offset beg + (end_ - beg) ->
  fst (run sim (fai_retrieve bz val offset beg end_) w) = (None, -1).
Proof.
  intros Hbl Hll Hoff Hbe Hend Hfit Hmax Hrd Hshort.
  assert (Hq : 0 <= beg / line_blen val) by (apply Z.div_pos; lia).
  assert (Hr : 0 <= beg mod line_blen val < line_blen val)
    by (apply Z.mod_pos_bound; lia).
  assert (Hp : 0 <= payload_offset val offset beg)
    by (unfold payload_offset; nia).
  unfold fai_retrieve.
  rewrite u64_sub_to_u64, (to_u64_small (end_ - beg)) by (unfold_cint; lia).
  destruct (Z.leb_spec (SIZE_MAX - 2) (end_ - beg)); [unfold_cint; lia |].
  destruct (Z.leb_spec (line_blen val) 0); [lia |].
  rewrite seek_target_exact by lia.
  destruct (reading_seek w (fd bz) content pos0 _ Hrd Hp)
    as (w1 & Hseek & Hrd1).
  rewrite (run_act _ _ _ _ _ _ Hseek). cbn [Z.ltb Z.compare].
  rewrite (run_act _ _ _ _ _ _ (reading_alloc w1 (fd bz) content _ _ Hrd1)).
  cbn [negb]. unfold i64_sub.
  rewrite (to_i64_small (end_ - beg)) by (unfold_cint; lia).
  rewrite Z.rem_mod_nonneg by lia.
  destruct (Z.leb_spec (end_ - beg) (line_blen val - beg mod line_blen val));
    [| lia].
  rewrite (to_u64_small (end_ - beg)) by (unfold_cint; lia).
  destruct (reading_read w1 (fd bz) content _ (end_ - beg) Hrd1)
    as (w2 & Hread & _).
  rewrite (run_act _ _ _ _ _ _ Hread). cbn [nread_of data_of].
  rewrite length_take, length_drop.
  destruct (Z.ltb_spec
              (Z.of_nat (Z.to_nat (end_ - beg)
                         `min` (length content
                                - Z.to_nat (payload_offset val offset beg))))
              (end_ - beg)); [reflexivity | lia].
Qed.

Lemma fai_retrieve_short_file_witness :
  fst (run sim (fai_retrieve t_bgzf chr1 6 0 10)
         (set_decoders t_world [(take 10 t_fa, 0)])) = (None, -1).
Proof.
  apply (fai_retrieve_short_file (set_decoders t_world [(take 10 t_fa, 0)])
           t_bgzf chr1 (take 10 t_fa) 0 6 0 10).
  - simpl; lia.
  - simpl; lia.
  - lia.
  - lia.
  - unfold_cint; lia.
  - vm_compute; discriminate.
  - vm_compute; discriminate.
  - split; reflexivity.
  - vm_compute; reflexivity.
Defined.
